(** * NakedSun core: start-up, identity transition, plugin loading, shutdown

    A shallow embedding of [src/nakedsun/core.py].  The Python code is
    sequential and effectful: it reads the environment (command line,
    configuration, file system, user database), changes the process
    identity, imports plugin modules, writes to the log and finally leaves
    through [sys.exit].  It is modelled as a state-and-exception monad over a
    [World] that carries the process identity, the working directory, the
    [pymodules] table and a chronological trace of every externally visible
    call.  Everything the code only reads is an oracle of the [Env] record, so
    the theorems hold for every file system, user database and kernel. *)

From stdpp Require Import base option list gmap strings.
From Stdlib Require Import ZArith String Ascii Lia Sorting.Sorted Sorting.Permutation.

Local Open Scope string_scope.
Local Open Scope list_scope.
Local Open Scope Z_scope.

(** ** Python values and built-ins *)

(** The values that reach [assume_uid]: [None], an [int], or a string (a
    command-line argument or a configuration entry). *)
Inductive PyVal : Type :=
| PNone
| PInt (z : Z)
| PStr (s : string).

Definition of_arg (a : option string) : PyVal :=
  match a with
  | Some s => PStr s
  | None => PNone
  end.

Definition is_None (v : PyVal) : bool :=
  match v with
  | PNone => true
  | _ => false
  end.

(** Truth value of [if v:]. *)
Definition truthy (v : PyVal) : bool :=
  match v with
  | PNone => false
  | PInt z => negb (z =? 0)
  | PStr s => negb (String.eqb s "")
  end.

(** [v == 0] *)
Definition eq_zero (v : PyVal) : bool :=
  match v with
  | PInt z => z =? 0
  | _ => false
  end.

Definition is_space (c : ascii) : bool :=
  let n := nat_of_ascii c in
  ((n =? 32) || ((9 <=? n) && (n <=? 13)))%nat.

Definition digit_of (c : ascii) : option Z :=
  let n := nat_of_ascii c in
  if ((48 <=? n) && (n <=? 57))%nat then Some (Z.of_nat n - 48) else None.

Fixpoint lstrip (s : string) : string :=
  match s with
  | String c r => if is_space c then lstrip r else s
  | EmptyString => EmptyString
  end.

Fixpoint string_rev_onto (acc s : string) : string :=
  match s with
  | String c r => string_rev_onto (String c acc) r
  | EmptyString => acc
  end.

Definition string_rev (s : string) : string := string_rev_onto "" s.

Definition strip (s : string) : string :=
  string_rev (lstrip (string_rev (lstrip s))).

Fixpoint digits_value (acc : Z) (s : string) : option Z :=
  match s with
  | String c r =>
      match digit_of c with
      | Some d => digits_value (10 * acc + d) r
      | None => None
      end
  | EmptyString => Some acc
  end.

Definition unsigned_value (s : string) : option Z :=
  match s with
  | EmptyString => None
  | _ => digits_value 0 s
  end.

(** [int(s)] for a string: surrounding blanks, an optional sign, decimal
    digits; [None] stands for [ValueError]. *)
Definition int_of_str (s : string) : option Z :=
  match strip s with
  | String "-" r => Z.opp <$> unsigned_value r
  | String "+" r => unsigned_value r
  | t => unsigned_value t
  end.

(** [int(v)]; [None] stands for [TypeError] or [ValueError]. *)
Definition py_int (v : PyVal) : option Z :=
  match v with
  | PNone => None
  | PInt z => Some z
  | PStr s => int_of_str s
  end.

(** [s.startswith(p)] and [s.endswith(p)] *)
Definition startswith (s p : string) : bool := String.prefix p s.

Definition endswith (s p : string) : bool :=
  let n := String.length s in
  let m := String.length p in
  if (m <=? n)%nat then String.eqb (String.substring (n - m) m s) p else false.

(** [s[:-3]] *)
Definition drop_last3 (s : string) : string :=
  String.substring 0 (String.length s - 3) s.

(** [os.path.join(a, b)] of [posixpath]. *)
Definition os_path_join (a b : string) : string :=
  if startswith b "/" then b
  else if String.eqb a "" || endswith a "/" then a +:+ b
  else a +:+ "/" +:+ b.

(** [sorted] on strings: the order is [String.leb], the order of [str]
    comparison on byte strings. *)
Fixpoint insert_sorted (x : string) (l : list string) : list string :=
  match l with
  | [] => [x]
  | y :: l' => if String.leb x y then x :: l else y :: insert_sorted x l'
  end.

Fixpoint sorted (l : list string) : list string :=
  match l with
  | [] => []
  | x :: l' => insert_sorted x (sorted l')
  end.

Definition le_str (a b : string) : Prop := String.leb a b = true.

(** ** Exceptions, results and the world *)

Inductive Exn : Type :=
| SystemExit (code : Z)        (* raised by [sys.exit] *)
| SystemCopyover               (* [nakedsun.mudsys.SystemCopyover] *)
| KeyboardInterrupt
| PyException (what : string). (* any other exception deriving from [Exception] *)

Inductive Res (A : Type) : Type :=
| Ret (a : A)
| Raise (e : Exn).
Arguments Ret {A} a.
Arguments Raise {A} e.

(** Exit status of the interpreter when [main] ends with [r]: the code of an
    uncaught [SystemExit], 1 for any other uncaught exception. *)
Definition exit_status {A} (r : Res A) : Z :=
  match r with
  | Ret _ => 0
  | Raise (SystemExit c) => c
  | Raise _ => 1
  end.

Inductive Level : Type :=
| DEBUG | INFO | WARNING | ERROR | CRITICAL | EXCEPTION | TODO | NAKED.

(** A log message keeps the format string of the source and the tuple it is
    applied to with [%]. *)
Record Msg : Type := Fmt { fmt : string; fmt_args : list PyVal }.

Record PyModule : Type := Module_ { mod_name : string }.

Inductive Event : Type :=
| EvLogInitialize (color : bool) (level path : string)
| EvLog (lvl : Level) (m : Msg)
| EvLogLine
| EvLogShutdown
| EvChdir (path : string)
| EvSettingsInitialize
| EvNetworkInitialize (addr http_addr : option string)
| EvAssumeUid (uid gid umask : PyVal)   (* entry into [assume_uid] *)
| EvSetuid (uid : Z)
| EvSetgid (gid : Z)
| EvUmask (mask : Z)
| EvImportStmt (name : string)          (* an [import] statement *)
| EvInject (name : string)              (* [sys.modules[name] = module] *)
| EvSysPathInsert (path : string)
| EvImport (name : string)              (* [__import__(name)] *)
| EvSignal                              (* [signal.signal(SIGHUP, signal_HUP)] *)
| EvEngineStart
| EvPrint (s : string)
| EvHooksRun (name : string).

(** Identity of the process as the code observes it. *)
Record Proc : Type := MkProc { p_uid : Z; p_gid : Z; p_umask : Z }.

Record World : Type := MkWorld {
  proc : Proc;
  cwd : string;
  pymodules : gmap string PyModule;
  trace : list Event
}.

Definition set_proc (p : Proc) (w : World) : World :=
  MkWorld p (cwd w) (pymodules w) (trace w).
Definition set_cwd (d : string) (w : World) : World :=
  MkWorld (proc w) d (pymodules w) (trace w).
Definition set_pymodules (m : gmap string PyModule) (w : World) : World :=
  MkWorld (proc w) (cwd w) m (trace w).
Definition add_event (e : Event) (w : World) : World :=
  MkWorld (proc w) (cwd w) (pymodules w) (trace w ++ [e]).

Definition M (A : Type) : Type := World -> Res A * World.

Definition ret {A} (a : A) : M A := fun w => (Ret a, w).

Definition bind {A B} (m : M A) (k : A -> M B) : M B :=
  fun w =>
    match m w with
    | (Ret a, w') => k a w'
    | (Raise e, w') => (Raise e, w')
    end.

Definition raise {A} (e : Exn) : M A := fun w => (Raise e, w).

Notation "x <- m ;; k" := (bind m (fun x => k))
  (at level 100, m at next level, right associativity, only parsing).
Notation "m ;;; k" := (bind m (fun _ => k))
  (at level 100, right associativity, only parsing).

Definition emit (e : Event) : M unit := fun w => (Ret tt, add_event e w).

(** Reading and updating the world. *)
Definition gets {A} (f : World -> A) : M A := fun w => (Ret (f w), w).
Definition modify (f : World -> World) : M unit := fun w => (Ret tt, f w).

Definition get_world : M World := gets (fun w => w).

Definition when (b : bool) (m : M unit) : M unit := if b then m else ret tt.

(** The logger and [sys.exit]. *)
Definition log (lvl : Level) (m : Msg) : M unit := emit (EvLog lvl m).
Definition log_shutdown : M unit := emit EvLogShutdown.
Definition log_line : M unit := emit EvLogLine.
Definition sys_exit {A} (code : Z) : M A := raise (SystemExit code).

(** [try: m except ...: h]: [h e] is the handler of the first [except]
    clause that matches [e], if any. *)
Definition try_except {A} (m : M A) (h : Exn -> option (M A)) : M A :=
  fun w =>
    match m w with
    | (Raise e, w') =>
        match h e with
        | Some k => k w'
        | None => (Raise e, w')
        end
    | r => r
    end.

Fixpoint for_each {A} (f : A -> M unit) (l : list A) : M unit :=
  match l with
  | [] => ret tt
  | x :: l' => f x ;;; for_each f l'
  end.

(** ** The environment *)

(** What the code reads but does not own.  Paths are interpreted against
    the working directory, which is passed first. *)
Record Env : Type := MkEnv {
  version : string;                       (* [nakedsun.version] *)
  do_uid : bool;                          (* [hasattr(os, "getuid")] *)
  has_SIGHUP : bool;                      (* [hasattr(signal, 'SIGHUP')] *)
  settings_get : string -> PyVal;         (* [nakedsun.settings.get] *)
  attr_name : string -> string;           (* [getattr(nakedsun, n).__name__] *)
  getpwnam : string -> option Z;          (* [pw_uid]; [None] is [KeyError] *)
  getpwuid : Z -> option string;          (* [pw_name]; [None] is [KeyError] *)
  getgrnam : string -> option Z;
  getgrgid : Z -> option string;
  os_setuid : Proc -> Z -> option Z;      (* [None] is [OSError]; otherwise
                                             what [os.getuid()] returns next *)
  os_setgid : Proc -> Z -> option Z;
  realpath : string -> string -> string;
  path_exists : string -> string -> bool;
  path_isfile : string -> string -> bool;
  path_isdir : string -> string -> bool;
  listdir : string -> string -> list string;
  import_ok : gmap string PyModule -> string -> bool;
                                          (* [false]: the import raises *)
  engine_outcome : option Exn             (* how [pants.engine.start()] ends:
                                             [None] is a normal return *)
}.

(** The parsed command line. *)
Record Args : Type := MkArgs {
  a_lib : string;
  a_addr : option string;
  a_http_addr : option string;
  a_log : string;
  a_level : string;
  a_color : bool;
  a_uid : option string;
  a_gid : option string;
  a_umask : option string;
  a_early : bool
}.

Section Core.

Variable env : Env.

Definition os_getuid : M Z := gets (fun w => p_uid (proc w)).
Definition os_getgid : M Z := gets (fun w => p_gid (proc w)).
Definition os_getcwd : M string := gets cwd.

Definition os_path_exists (p : string) : M bool :=
  gets (fun w => path_exists env (cwd w) p).

(** [os.path.abspath(p)]: the working directory is already normalised. *)
Definition os_path_abspath (p : string) : M string :=
  gets (fun w => os_path_join (cwd w) p).

(** ** [assume_uid] *)

(** [if v is None: v = nakedsun.settings.get(key)] *)
Definition or_setting (v : PyVal) (key : string) : PyVal :=
  if is_None v then settings_get env key else v.

(** [try: v = int(v) except (TypeError, ValueError): pass] *)
Definition try_int (v : PyVal) : PyVal :=
  match py_int v with
  | Some z => PInt z
  | None => v
  end.

Definition invalid_umask (umask : PyVal) : Msg :=
  Fmt "Invalid value for umask %r." [umask].
Definition assuming_umask (umask old : Z) : Msg :=
  Fmt "Assuming the umask %04o (old was %04o)." [PInt umask; PInt old].

(** Lines 81-88: the umask is an [int] or is dropped, with a warning when it
    was a non-empty value. *)
Definition resolve_umask (umask : PyVal) : M (option Z) :=
  let umask := or_setting umask "umask" in
  match py_int umask with
  | Some z => ret (Some z)
  | None =>
      when (truthy umask) (log WARNING (invalid_umask umask)) ;;;
      ret None
  end.

(** Lines 103-120: [os.setuid] when the uid differs, with its [OSError]
    handler. *)
Definition set_uid (uid : Z) : M unit :=
  cur <- os_getuid ;;
  if cur =? uid then ret tt
  else
    emit (EvSetuid uid) ;;;
    w <- get_world ;;
    match os_setuid env (proc w) uid with
    | Some u =>
        modify (fun w => set_proc (MkProc u (p_gid (proc w)) (p_umask (proc w))) w) ;;;
        match getpwuid env uid with
        | Some name => log INFO (Fmt "Assuming the UID %d (%s)." [PInt uid; PStr name])
        | None => log INFO (Fmt "Assuming the UID %d." [PInt uid])
        end
    | None =>
        match getpwuid env uid with
        | Some name =>
            log CRITICAL (Fmt "Unable to assume the UID %d (%s)." [PInt uid; PStr name])
        | None => log CRITICAL (Fmt "Unable to assume the UID %d." [PInt uid])
        end ;;;
        log_shutdown ;;;
        sys_exit 1
    end.

(** Lines 90-120.  The result is the value of the variable [uid] afterwards. *)
Definition uid_step (uid : PyVal) : M PyVal :=
  match uid with
  | PNone => ret PNone
  | PInt n => set_uid n ;;; ret (PInt n)
  | PStr name =>
      match getpwnam env name with
      | Some n => set_uid n ;;; ret (PInt n)
      | None =>
          log CRITICAL (Fmt "No such user %r." [uid]) ;;;
          log_shutdown ;;;
          sys_exit 1
      end
  end.

Definition root_warning : Msg :=
  Fmt "The server is running as root. This is not recommended." [].
Definition root_refused : Msg :=
  Fmt "Please do not run the server as root." [].
Definition root_remedy : Msg :=
  Fmt "Set a UID via the --uid command-line argument, or in the MUD configuration file. If the server must run as root, provide a UID of 0." [].

(** Lines 122-133. *)
Definition anti_root (uid : PyVal) : M unit :=
  cur <- os_getuid ;;
  if cur =? 0 then
    if eq_zero uid then log WARNING root_warning
    else
      log CRITICAL root_refused ;;;
      log CRITICAL root_remedy ;;;
      log_shutdown ;;;
      sys_exit 1
  else ret tt.

Definition set_gid (gid : Z) : M unit :=
  cur <- os_getgid ;;
  if cur =? gid then ret tt
  else
    emit (EvSetgid gid) ;;;
    w <- get_world ;;
    match os_setgid env (proc w) gid with
    | Some g =>
        modify (fun w => set_proc (MkProc (p_uid (proc w)) g (p_umask (proc w))) w) ;;;
        match getgrgid env gid with
        | Some name => log INFO (Fmt "Assuming the GID %d (%s)." [PInt gid; PStr name])
        | None => log INFO (Fmt "Assuming the GID %d." [PInt gid])
        end
    | None =>
        match getgrgid env gid with
        | Some name =>
            log CRITICAL (Fmt "Unable to assume the GID %d (%s)." [PInt gid; PStr name])
        | None => log CRITICAL (Fmt "Unable to assume the GID %d." [PInt gid])
        end ;;;
        log_shutdown ;;;
        sys_exit 1
    end.

(** Lines 135-165. *)
Definition gid_step (gid : PyVal) : M unit :=
  match gid with
  | PNone => ret tt
  | PInt n => set_gid n
  | PStr name =>
      match getgrnam env name with
      | Some n => set_gid n
      | None =>
          log CRITICAL (Fmt "No such group %r." [gid]) ;;;
          log_shutdown ;;;
          sys_exit 1
      end
  end.

(** [old = os.umask(umask)]: the kernel keeps the nine permission bits and
    returns the previous mask. *)
Definition os_umask (mask : Z) : M Z :=
  emit (EvUmask mask) ;;;
  old <- gets (fun w => p_umask (proc w)) ;;
  modify (fun w =>
            set_proc (MkProc (p_uid (proc w)) (p_gid (proc w)) (Z.land mask 511)) w) ;;;
  ret old.

(** Lines 167-170. *)
Definition umask_step (umask : option Z) : M unit :=
  match umask with
  | Some mask =>
      old <- os_umask mask ;;
      log INFO (assuming_umask mask old)
  | None => ret tt
  end.

Definition assume_uid (uid gid umask : PyVal) : M unit :=
  emit (EvAssumeUid uid gid umask) ;;;
  let uid := try_int (or_setting uid "uid") in
  let gid := try_int (or_setting gid "gid") in
  umask <- resolve_umask umask ;;
  uid <- uid_step uid ;;
  anti_root uid ;;;
  gid_step gid ;;;
  umask_step umask.

End Core.

(** ** Loading the MUD library *)

Section Loader.

Variable env : Env.

(** Lines 327-329, the test guarding [continue], for the entry [fn] whose
    full path is [full]. *)
Definition skipped (dir : string) (fn full : string) : bool :=
  startswith fn "."
  || (path_isfile env dir full && negb (endswith fn ".py"))
  || (path_isdir env dir full
      && negb (path_exists env dir (os_path_join full "__init__.py"))).

(** Lines 333-334. *)
Definition trim_py (fn : string) : string :=
  if endswith fn ".py" then drop_last3 fn else fn.

Definition importing (fn : string) : Msg :=
  Fmt "Importing module: %s" [PStr fn].
Definition import_error (fn full : string) : Msg :=
  Fmt "An error occurred when attempting to import Python module: %s (%s)"
      [PStr fn; PStr full].

(** Lines 337-345: [nakedsun.mudsys.pymodules[fn] = __import__(fn)] and its
    [except Exception] handler. *)
Definition import_module (fn full : string) : M unit :=
  log DEBUG (importing fn) ;;;
  emit (EvImport fn) ;;;
  w <- get_world ;;
  if import_ok env (pymodules w) fn then
    modify (fun w => set_pymodules (<[fn := Module_ fn]> (pymodules w)) w)
  else
    log EXCEPTION (import_error fn full) ;;;
    log_shutdown ;;;
    sys_exit 1.

(** The body of the [for] loop, lines 323-345. *)
Definition load_entry (path fn : string) : M unit :=
  let full := os_path_join path fn in
  w <- get_world ;;
  if skipped (cwd w) fn full then ret tt
  else import_module (trim_py fn) full.

(** Lines 322-345. *)
Definition scan_pymodules (path : string) : M unit :=
  w <- get_world ;;
  for_each (load_entry path) (sorted (listdir env (cwd w) "pymodules")).

(** An [import] statement of a module that may raise. *)
Definition import_stmt (name : string) : M unit :=
  emit (EvImportStmt name) ;;;
  w <- get_world ;;
  if import_ok env (pymodules w) name then ret tt
  else raise (PyException name).

(** Lines 303-345. *)
Definition load_library : M unit :=
  log INFO (Fmt "Loading the MUD library." []) ;;;
  present <- os_path_exists env "pymodules" ;;
  if negb present then
    log ERROR (Fmt "Cannot find pymodules in the MUD library." []) ;;;
    log_shutdown ;;;
    sys_exit 1
  else
    package <- os_path_exists env (os_path_join "pymodules" "__init__.py") ;;
    if package then
      log DEBUG (Fmt "Importing module: pymodules" []) ;;;
      import_stmt "pymodules"
    else
      log DEBUG (Fmt "pymodules is not a package. Entering directory." []) ;;;
      path <- os_path_abspath "pymodules" ;;
      emit (EvSysPathInsert path) ;;;
      scan_pymodules path.

End Loader.

(** ** The signal handler and [main] *)

(** [signal_HUP(signum, frame)]: the whole body is a [raise]. *)
Definition signal_HUP (signum : Z) (frame : unit) : M unit :=
  raise SystemCopyover.

Definition SIGHUP : Z := 1.

Section Main.

Variable env : Env.

(** [inject(name, module)] with [module = getattr(nakedsun, name)]. *)
Definition inject (name : string) : M unit :=
  log DEBUG (Fmt "Injecting %r into sys.modules as %r."
                 [PStr (attr_name env name); PStr name]) ;;;
  emit (EvInject name).

Definition injected_modules : list string :=
  ["account"; "auxiliary"; "bitvectors"; "char"; "event"; "hooks";
   "mudsock"; "mud"; "mudsys"; "obj"; "room"; "storage"].

(** Lines 259-269. *)
Definition enter_library (args : Args) : M unit :=
  dir <- os_getcwd ;;
  let path := realpath env dir (a_lib args) in
  if negb (path_exists env dir path)
     || negb (path_exists env dir (os_path_join path "muddata")
              || path_exists env dir (os_path_join path "config"))
  then
    log ERROR (Fmt "Cannot find the MUD library at: %s" [PStr path]) ;;;
    log_shutdown ;;;
    sys_exit 1
  else if String.eqb path dir then ret tt
  else
    log INFO (Fmt "Changing working directory to: %s" [PStr path]) ;;;
    emit (EvChdir path) ;;;
    modify (set_cwd path).

(** Lines 285-286. *)
Definition early_identity (args : Args) : M unit :=
  when (do_uid env && a_early args)
    (assume_uid env (of_arg (a_uid args)) (of_arg (a_gid args))
                (of_arg (a_umask args))).

(** Lines 358-359. *)
Definition late_identity (args : Args) : M unit :=
  when (do_uid env && negb (a_early args))
    (assume_uid env (of_arg (a_uid args)) (of_arg (a_gid args))
                (of_arg (a_umask args))).

(** The sections of [main], named after their headings in the source. *)

(** Lines 254-255. *)
Definition logging (args : Args) : M unit :=
  emit (EvLogInitialize (a_color args) (a_level args)
          (os_path_join (a_lib args) (a_log args))) ;;;
  log NAKED (Fmt "NakedSun v%s by Stendec <me@stendec.me>" [PStr (version env)]).

(** Lines 273-274. *)
Definition load_configuration : M unit :=
  log INFO (Fmt "Loading MUD configuration from file." []) ;;;
  emit EvSettingsInitialize.

(** Lines 278-281. *)
Definition network_initialization (args : Args) : M unit :=
  log INFO (Fmt "Initializing the network." []) ;;;
  emit (EvImportStmt "nakedsun.network") ;;;
  emit (EvNetworkInitialize (a_addr args) (a_http_addr args)).

(** Lines 290-299. *)
Definition nakedmud_compatibility : M unit :=
  when (truthy (settings_get env "nakedmud_compatible"))
    (log INFO (Fmt "Loading NakedMud Compatibility Layer." []) ;;;
     emit (EvImportStmt "nakedsun.nmcompat")) ;;;
  log INFO (Fmt "Injecting global modules for NakedMud compatibility." []) ;;;
  for_each inject injected_modules.

(** Line 349. *)
Definition copyover_recovery : M unit :=
  log TODO (Fmt "Copyover Recovery." []).

(** Lines 353-354. *)
Definition register_signals : M unit :=
  when (has_SIGHUP env) (emit EvSignal).

Definition sequence (l : list (M unit)) : M unit := for_each (fun m => m) l.

(** Lines 252-354: everything up to and including signal registration. *)
Definition startup_phases (args : Args) : list (M unit) :=
  [logging args; enter_library args; load_configuration;
   network_initialization args; early_identity args; nakedmud_compatibility;
   load_library env; copyover_recovery; register_signals].

(** [pants.engine.start()] *)
Definition engine_start : M unit :=
  emit EvEngineStart ;;;
  match engine_outcome env with
  | None => ret tt
  | Some e => raise e
  end.

(** Lines 366-375 around an engine call [engine]; the result is the value
    of [begin_copyover] after the [try] statement. *)
Definition run_loop (engine : M unit) : M bool :=
  try_except (engine ;;; ret false)
    (fun e =>
       match e with
       | SystemCopyover => Some (ret true)
       | SystemExit _ => Some (ret false)
       | KeyboardInterrupt => Some (emit (EvPrint "") ;;; ret false)
       | PyException _ => None
       end).

Definition copyover_todo : Msg := Fmt "Copyover." [].
Definition exiting_normally : Msg := Fmt "Exiting normally." [].

(** Lines 377-388. *)
Definition shutdown (begin_copyover : bool) : M unit :=
  log_line ;;;
  when begin_copyover (log TODO copyover_todo) ;;;
  emit (EvHooksRun "shutdown") ;;;
  log INFO exiting_normally ;;;
  log_shutdown ;;;
  sys_exit 0.

Definition entering_loop : Msg := Fmt "Entering the game loop." [].

(** Lines 363-364. *)
Definition enter_loop : M unit :=
  log INFO entering_loop ;;;
  log_line.

(** The phases before the [try] statement of the event loop. *)
Definition phases (args : Args) : list (M unit) :=
  startup_phases args ++ [late_identity args; enter_loop].

(** [main()] after [parser.parse_args()]. *)
Definition main (args : Args) : M unit :=
  sequence (phases args) ;;;
  begin_copyover <- run_loop engine_start ;;
  shutdown begin_copyover.

(** *** Deliveries of SIGHUP

    Once [signal_HUP] is installed the interpreter calls it in the main
    thread, between two instructions of whatever code is running, and what it
    raises propagates from there.  [hup] says at which of three places of
    the rest of [main] a delivery happens. *)
Inductive Place : Type :=
| BeforeLoop     (* after registration, before the [try] statement *)
| InLoop         (* inside [pants.engine.start()] *)
| AfterLoop.     (* after the [try] statement has been left *)

Definition delivered {A} (now : bool) (m : M A) : M A :=
  if now then signal_HUP SIGHUP tt ;;; m else m.

(** The engine when a delivery may reach it: the handler's exception leaves
    [pants.engine.start()]. *)
Definition engine_start_hup (now : bool) : M unit :=
  emit EvEngineStart ;;;
  delivered now
    match engine_outcome env with
    | None => ret tt
    | Some e => raise e
    end.

(** Lines 356-388 under the deliveries [hup]. *)
Definition supervise (hup : Place -> bool) (args : Args) : M unit :=
  delivered (hup BeforeLoop) (late_identity args) ;;;
  enter_loop ;;;
  begin_copyover <- run_loop (engine_start_hup (hup InLoop)) ;;
  delivered (hup AfterLoop) (shutdown begin_copyover).

End Main.

(** ** Reading traces *)

Definition is_hooks_run (e : Event) : bool :=
  match e with EvHooksRun _ => true | _ => false end.
Definition is_engine_start (e : Event) : bool :=
  match e with EvEngineStart => true | _ => false end.
Definition is_assume_uid (e : Event) : bool :=
  match e with EvAssumeUid _ _ _ => true | _ => false end.
Definition is_setuid (e : Event) : bool :=
  match e with EvSetuid _ => true | _ => false end.
Definition is_umask (e : Event) : bool :=
  match e with EvUmask _ => true | _ => false end.

Definition count (p : Event -> bool) (t : list Event) : nat :=
  List.length (List.filter p t).

(** The names passed to [__import__], in order. *)
Fixpoint imports_of (t : list Event) : list string :=
  match t with
  | [] => []
  | EvImport n :: t' => n :: imports_of t'
  | _ :: t' => imports_of t'
  end.

Definition initial_world (p : Proc) (dir : string) : World :=
  MkWorld p dir ∅ [].

(** Three ways to bound what a computation does: the events it appends,
    the exceptions it may end with, and what it leaves as it was. *)
Definition emits {A} (P : Event -> Prop) (m : M A) : Prop :=
  forall w, exists evs, trace (m w).2 = trace w ++ evs /\ Forall P evs.

Definition fails_only {A} (Q : Exn -> Prop) (m : M A) : Prop :=
  forall w e, (m w).1 = Raise e -> Q e.

Definition keeps {A B} (f : World -> B) (m : M A) : Prop :=
  forall w, f (m w).2 = f w.

Definition get_uid (w : World) : Z := p_uid (proc w).

(** The informational line of a uid change, lines 109-112. *)
Definition is_assuming_uid (e : Event) : bool :=
  match e with
  | EvLog INFO (Fmt f _) => startswith f "Assuming the UID"
  | _ => false
  end.

Definition no_uid_change (e : Event) : Prop :=
  is_setuid e = false /\ is_assuming_uid e = false.


(** Events other than the three the supervisor properties count. *)
Definition ordinary (e : Event) : Prop :=
  is_hooks_run e = false /\ is_engine_start e = false /\ is_assume_uid e = false.


(** [m], when it returns, has appended exactly [n] events satisfying [p]. *)
Definition adds {A} (p : Event -> bool) (n : nat) (m : M A) : Prop :=
  forall w a w', m w = (Ret a, w') ->
    count p (trace w') = (count p (trace w) + n)%nat.

(** The three ways the run loop may end, and the way the [try] statement of
    lines 368-375 maps the end of [pants.engine.start()] to them; [None]: the
    exception is not handled there. *)
Inductive ControlEvent : Type := Normal | CopyoverRequested | Interrupted.

Definition control_event (outcome : option Exn) : option ControlEvent :=
  match outcome with
  | None => Some Normal
  | Some (SystemExit _) => Some Normal
  | Some SystemCopyover => Some CopyoverRequested
  | Some KeyboardInterrupt => Some Interrupted
  | Some (PyException _) => None
  end.

Definition only_in_loop (p : Place) : bool :=
  match p with InLoop => true | _ => false end.
Definition in_loop_and_after (p : Place) : bool :=
  match p with BeforeLoop => false | _ => true end.
Definition never (p : Place) : bool := false.

(** The module names the loop of lines 322-345 sets out to import for the
    entries [fns], in order: the entries it does not skip, trimmed. *)
Definition plan (env : Env) (dir path : string) (fns : list string) : list string :=
  List.map trim_py
    (List.filter (fun fn => negb (skipped env dir fn (os_path_join path fn))) fns).

(** [pymodules[n] = ...] for each [n] of [names], in order. *)
Definition record_all (names : list string) (m : gmap string PyModule) :
    gmap string PyModule :=
  List.fold_left (fun m n => <[n := Module_ n]> m) names m.



(** [assume_uid] from line 90 on, the umask being resolved to [um]. *)
Definition identity_steps (env : Env) (uid gid : PyVal) (um : option Z) : M unit :=
  uid' <- uid_step env (try_int (or_setting env uid "uid")) ;;
  anti_root uid' ;;;
  gid_step env (try_int (or_setting env gid "gid")) ;;;
  umask_step um.

(** The uid that lines 95-101 arrive at for the value [v] of [uid]. *)
Definition resolved_uid (env : Env) (v : PyVal) : option Z :=
  match v with
  | PNone => None
  | PInt n => Some n
  | PStr name => getpwnam env name
  end.

(** ** Further readings of traces and environments *)

Definition is_inject (e : Event) : bool :=
  match e with EvInject _ => true | _ => false end.
Definition is_signal (e : Event) : bool :=
  match e with EvSignal => true | _ => false end.
Definition is_setgid (e : Event) : bool :=
  match e with EvSetgid _ => true | _ => false end.

(** Code of the MUD library starts to run: [import pymodules] or an
    [__import__] of the scan. *)
Definition is_library_import (e : Event) : bool :=
  match e with
  | EvImport _ => true
  | EvImportStmt name => String.eqb name "pymodules"
  | _ => false
  end.

(** The names injected into [sys.modules], in order. *)
Fixpoint injects_of (t : list Event) : list string :=
  match t with
  | [] => []
  | EvInject n :: t' => n :: injects_of t'
  | _ :: t' => injects_of t'
  end.

(** The position in [phases], followed by the event loop (11) and the
    cleanup (12), of the section of [main] that makes the call an event
    records; calls to the logger other than its initialisation belong to no
    section in particular.  The calls of [assume_uid] belong to the early or
    to the late section according to [--early]. *)
Definition stage (early : bool) (e : Event) : option nat :=
  match e with
  | EvLogInitialize _ _ _ => Some 0
  | EvChdir _ => Some 1
  | EvSettingsInitialize => Some 2
  | EvNetworkInitialize _ _ => Some 3
  | EvAssumeUid _ _ _ | EvSetuid _ | EvSetgid _ | EvUmask _ =>
      Some (if early then 4 else 9)
  | EvInject _ => Some 5
  | EvImportStmt name =>
      if String.eqb name "pymodules" then Some 6
      else if String.eqb name "nakedsun.nmcompat" then Some 5
      else if String.eqb name "nakedsun.network" then Some 3
      else None
  | EvSysPathInsert _ | EvImport _ => Some 6
  | EvSignal => Some 8
  | EvEngineStart | EvPrint _ => Some 11
  | EvHooksRun _ => Some 12
  | EvLog _ _ | EvLogLine | EvLogShutdown => None
  end%nat.


Definition at_stage (early : bool) (i : nat) (e : Event) : Prop :=
  stage early e = None \/ stage early e = Some i.

(** [m] appends events of section [i] only, whatever the outcome. *)
Definition in_stage {A} (early : bool) (i : nat) (m : M A) : Prop :=
  emits (at_stage early i) m.

(** [m] appends events of the sections [lo] to [hi] only. *)
Definition in_range (early : bool) (lo hi : nat) (e : Event) : Prop :=
  forall s, stage early e = Some s -> (lo <= s <= hi)%nat.




(** The gid that lines 140-146 arrive at for the value [v] of [gid]. *)
Definition resolved_gid (env : Env) (v : PyVal) : option Z :=
  match v with
  | PNone => None
  | PInt n => Some n
  | PStr name => getgrnam env name
  end.

(** The same environment with another configuration, another way for the
    engine to end, or another directory listing. *)
Definition with_settings (settings : string -> PyVal) (env : Env) : Env :=
  MkEnv (version env) (do_uid env) (has_SIGHUP env) settings (attr_name env)
    (getpwnam env) (getpwuid env) (getgrnam env) (getgrgid env)
    (os_setuid env) (os_setgid env) (realpath env) (path_exists env)
    (path_isfile env) (path_isdir env) (listdir env) (import_ok env)
    (engine_outcome env).

Definition with_outcome (outcome : option Exn) (env : Env) : Env :=
  MkEnv (version env) (do_uid env) (has_SIGHUP env) (settings_get env)
    (attr_name env) (getpwnam env) (getpwuid env) (getgrnam env) (getgrgid env)
    (os_setuid env) (os_setgid env) (realpath env) (path_exists env)
    (path_isfile env) (path_isdir env) (listdir env) (import_ok env) outcome.

Definition with_listdir (ls : string -> string -> list string) (env : Env) : Env :=
  MkEnv (version env) (do_uid env) (has_SIGHUP env) (settings_get env)
    (attr_name env) (getpwnam env) (getpwuid env) (getgrnam env) (getgrgid env)
    (os_setuid env) (os_setgid env) (realpath env) (path_exists env)
    (path_isfile env) (path_isdir env) ls (import_ok env) (engine_outcome env).

(** The world after the calls [evs] have been recorded. *)
Definition extend (evs : list Event) (w : World) : World :=
  MkWorld (proc w) (cwd w) (pymodules w) (trace w ++ evs).

(** Lines 366-388: the event loop and the cleanup. *)
Definition loop_and_cleanup (env : Env) : M unit :=
  begin_copyover <- run_loop (engine_start env) ;;
  shutdown begin_copyover.

(** ** Sample environments

    A Unix host with the users [root] (0) and [mud] (1000), a kernel that
    lets only uid 0 change identity, and a library at [/srv/lib] whose
    [pymodules] directory lists [listing]; [fails] names the modules whose
    import raises. *)
Definition sample_paths : list string :=
  ["/srv/lib"; "/srv/lib/config"; "/srv/lib/pymodules";
   "/srv/lib/pymodules/b.py"; "/srv/lib/pymodules/a.py";
   "/srv/lib/pymodules/c.py"; "/srv/lib/pymodules/.hidden.py";
   "/srv/lib/pymodules/pkgdir"; "/srv/lib/pymodules/pkg2";
   "/srv/lib/pymodules/pkg2/__init__.py";
   "/srv/lib/pymodules/ext.py"; "/srv/lib/pymodules/ext.py/__init__.py";
   "/srv/lib/pymodules/.tool.py"; "/srv/lib/pymodules/.tool.py/__init__.py"].

Definition sample_dirs : list string :=
  ["/srv/lib"; "/srv/lib/pymodules"; "/srv/lib/pymodules/pkgdir";
   "/srv/lib/pymodules/pkg2"; "/srv/lib/pymodules/ext.py";
   "/srv/lib/pymodules/.tool.py"].

Definition mem_str (s : string) (l : list string) : bool :=
  List.existsb (String.eqb s) l.

Definition sample_env (unix : bool) (settings : string -> PyVal)
    (listing fails : list string) (outcome : option Exn) : Env :=
  {| version := "0.1";
     do_uid := unix;
     has_SIGHUP := unix;
     settings_get := settings;
     attr_name := fun n => "nakedsun." +:+ n;
     getpwnam := fun n =>
       if String.eqb n "root" then Some 0
       else if String.eqb n "mud" then Some 1000 else None;
     getpwuid := fun u =>
       if u =? 0 then Some "root" else if u =? 1000 then Some "mud" else None;
     getgrnam := fun n =>
       if String.eqb n "wheel" then Some 0
       else if String.eqb n "mud" then Some 1000 else None;
     getgrgid := fun g =>
       if g =? 0 then Some "wheel" else if g =? 1000 then Some "mud" else None;
     os_setuid := fun p u => if p_uid p =? 0 then Some u else None;
     os_setgid := fun p g => if p_uid p =? 0 then Some g else None;
     realpath := os_path_join;
     path_exists := fun dir p => mem_str (os_path_join dir p) sample_paths;
     path_isfile := fun dir p =>
       mem_str (os_path_join dir p) sample_paths
       && negb (mem_str (os_path_join dir p) sample_dirs);
     path_isdir := fun dir p => mem_str (os_path_join dir p) sample_dirs;
     listdir := fun dir p =>
       if String.eqb (os_path_join dir p) "/srv/lib/pymodules" then listing
       else [];
     import_ok := fun _ n => negb (mem_str n fails);
     engine_outcome := outcome |}.

Definition no_settings : string -> PyVal := fun _ => PNone.

Definition sample_args (uid umask : option string) (early : bool) : Args :=
  MkArgs "lib" None None "../log" "INFO" true uid None umask early.

Definition in_library : World := initial_world (MkProc 1000 1000 18) "/srv/lib".
Definition claimed_listing : list string :=
  ["b.py"; "a.py"; ".hidden.py"; "pkgdir"; "pkg2"].

Definition as_root : World := initial_world (MkProc 0 0 18) "/srv".
Definition as_mud : World := initial_world (MkProc 1000 1000 18) "/srv".

(** * Properties *)

(** ** Strings and sorting *)

Example int_of_str_values :
  int_of_str " -12 " = Some (-12) /\ int_of_str "022" = Some 22
  /\ int_of_str "+7" = Some 7 /\ int_of_str "" = None
  /\ int_of_str "- 7" = None /\ int_of_str "mud" = None.
Proof. repeat split. Qed.

Example os_path_join_values :
  os_path_join "/srv/lib" "pymodules" = "/srv/lib/pymodules"
  /\ os_path_join "/" "a.py" = "/a.py"
  /\ os_path_join "lib" "../log" = "lib/../log"
  /\ os_path_join "lib" "/var/log" = "/var/log".
Proof. repeat split. Qed.

Example trim_py_values :
  trim_py "a.py" = "a" /\ trim_py "pkg2" = "pkg2" /\ trim_py "a.pyc" = "a.pyc".
Proof. repeat split. Qed.

Lemma substring_full (s : string) :
  String.substring 0 (String.length s) s = s.
Proof. induction s; simpl; [reflexivity|now f_equal]. Qed.

Lemma substring_split (s : string) (k : nat) :
  (k <= String.length s)%nat ->
  String.substring 0 k s +:+ String.substring k (String.length s - k) s = s.
Proof.
  revert k. induction s as [|c s IH]; intros k Hk.
  - destruct k; reflexivity.
  - destruct k as [|k].
    + rewrite Nat.sub_0_r.
      transitivity (String.substring 0 (String.length (String c s)) (String c s));
        [reflexivity|apply substring_full].
    + transitivity (String c (String.substring 0 k s
                              +:+ String.substring k (String.length s - k) s));
        [reflexivity|].
      f_equal. apply IH. simpl in Hk. lia.
Qed.

Lemma substring_prefix_length (s : string) (k : nat) :
  (k <= String.length s)%nat -> String.length (String.substring 0 k s) = k.
Proof.
  revert k. induction s as [|c s IH]; intros k Hk.
  - destruct k; simpl in *; [reflexivity|lia].
  - destruct k as [|k]; simpl; [reflexivity|].
    f_equal. apply IH. simpl in Hk. lia.
Qed.

Lemma endswith_py_length (fn : string) :
  endswith fn ".py" = true -> (3 <= String.length fn)%nat.
Proof.
  unfold endswith. simpl String.length.
  destruct (Nat.leb_spec 3 (String.length fn)); [lia|discriminate].
Qed.

Lemma endswith_py_split (fn : string) :
  endswith fn ".py" = true -> drop_last3 fn +:+ ".py" = fn.
Proof.
  intros H. pose proof (endswith_py_length _ H) as Hlen.
  unfold endswith in H. simpl String.length in H.
  destruct (Nat.leb_spec 3 (String.length fn)); [|discriminate].
  apply String.eqb_eq in H.
  pose proof (substring_split fn (String.length fn - 3) ltac:(lia)) as Hs.
  replace (String.length fn - (String.length fn - 3))%nat with 3%nat in Hs by lia.
  rewrite H in Hs. exact Hs.
Qed.

Lemma drop_last3_differs (fn : string) :
  endswith fn ".py" = true -> drop_last3 fn <> fn.
Proof.
  intros H Heq. pose proof (endswith_py_length _ H) as Hlen.
  pose proof (substring_prefix_length fn (String.length fn - 3) ltac:(lia)) as Hl.
  fold (drop_last3 fn) in Hl. rewrite Heq in Hl. lia.
Qed.

Lemma insert_sorted_Sorted (x : string) (l : list string) :
  Sorted le_str l -> Sorted le_str (insert_sorted x l).
Proof.
  induction 1 as [|y l Hl IH Hd]; simpl.
  - repeat constructor.
  - destruct (String.leb x y) eqn:Hxy.
    + constructor; [constructor; assumption|constructor; exact Hxy].
    + constructor; [exact IH|].
      assert (Hyx : le_str y x).
      { destruct (String.leb_total x y) as [H|H]; [congruence|exact H]. }
      destruct Hd as [|z l Hyz]; simpl.
      * constructor; exact Hyx.
      * destruct (String.leb x z); constructor; assumption.
Qed.

Lemma sorted_Sorted (l : list string) : Sorted le_str (sorted l).
Proof.
  induction l; simpl; [constructor|]. now apply insert_sorted_Sorted.
Qed.

Lemma insert_sorted_Permutation (x : string) (l : list string) :
  Permutation (x :: l) (insert_sorted x l).
Proof.
  induction l as [|y l IH]; simpl; [reflexivity|].
  destruct (String.leb x y); [reflexivity|].
  rewrite perm_swap. now constructor.
Qed.

Lemma sorted_Permutation (l : list string) : Permutation l (sorted l).
Proof.
  induction l as [|x l IH]; simpl; [constructor|].
  rewrite <- insert_sorted_Permutation. now constructor.
Qed.

(** ** The monad *)

Lemma bind_ret_l {A B} (m : M A) (k : A -> M B) (w w' : World) (a : A) :
  m w = (Ret a, w') -> bind m k w = k a w'.
Proof. intros H. unfold bind. now rewrite H. Qed.

Lemma bind_raise_l {A B} (m : M A) (k : A -> M B) (w w' : World) (e : Exn) :
  m w = (Raise e, w') -> bind m k w = (Raise e, w').
Proof. intros H. unfold bind. now rewrite H. Qed.

Lemma bind_assoc {A B C} (m : M A) (k : A -> M B) (h : B -> M C) (w : World) :
  bind (bind m k) h w = bind m (fun a => bind (k a) h) w.
Proof.
  unfold bind. destruct (m w) as [[a|e] w']; [|reflexivity].
  reflexivity.
Qed.

Lemma bind_ext {A B} (m : M A) (k1 k2 : A -> M B) (w : World) :
  (forall a w', k1 a w' = k2 a w') -> bind m k1 w = bind m k2 w.
Proof.
  intros H. unfold bind. destruct (m w) as [[a|e] w']; [apply H|reflexivity].
Qed.

Lemma for_each_app {A} (f : A -> M unit) (l1 l2 : list A) (w : World) :
  for_each f (l1 ++ l2) w = (for_each f l1 ;;; for_each f l2) w.
Proof.
  revert w. induction l1 as [|x l1 IH]; intros w; simpl.
  - reflexivity.
  - rewrite bind_assoc. apply bind_ext. intros _ w'. apply IH.
Qed.

Section Bounds.

Context {A : Type}.

Lemma emits_weaken (P Q : Event -> Prop) (m : M A) :
  (forall e, P e -> Q e) -> emits P m -> emits Q m.
Proof.
  intros HPQ Hm w. destruct (Hm w) as (evs & Ht & Hall).
  exists evs. split; [exact Ht|]. eapply Forall_impl; eauto.
Qed.

Lemma emits_ret (P : Event -> Prop) (a : A) : emits P (ret a).
Proof. intros w. exists []. simpl. now rewrite app_nil_r. Qed.

Lemma emits_raise (P : Event -> Prop) (e : Exn) : emits P (@raise A e).
Proof. intros w. exists []. simpl. now rewrite app_nil_r. Qed.

Lemma emits_gets (P : Event -> Prop) (f : World -> A) : emits P (gets f).
Proof. intros w. exists []. simpl. now rewrite app_nil_r. Qed.

Lemma emits_bind {B} (P : Event -> Prop) (m : M A) (k : A -> M B) :
  emits P m -> (forall a, emits P (k a)) -> emits P (bind m k).
Proof.
  intros Hm Hk w. destruct (Hm w) as (evs & Ht & Hall).
  unfold bind. destruct (m w) as [[a|e] w1]; simpl in Ht.
  - destruct (Hk a w1) as (evs' & Ht' & Hall').
    exists (evs ++ evs'). rewrite Ht', Ht, app_assoc. split; [reflexivity|].
    apply Forall_app; auto.
  - exists evs. auto.
Qed.

Lemma emits_try_except (P : Event -> Prop) (m : M A) (h : Exn -> option (M A)) :
  emits P m -> (forall e k, h e = Some k -> emits P k) -> emits P (try_except m h).
Proof.
  intros Hm Hh w. destruct (Hm w) as (evs & Ht & Hall).
  unfold try_except. destruct (m w) as [[a|e] w1]; simpl in Ht.
  - exists evs. auto.
  - destruct (h e) as [k|] eqn:He.
    + destruct (Hh e k He w1) as (evs' & Ht' & Hall').
      exists (evs ++ evs'). rewrite Ht', Ht, app_assoc. split; [reflexivity|].
      apply Forall_app; auto.
    + exists evs. auto.
Qed.

Lemma fails_only_ret (Q : Exn -> Prop) (a : A) : fails_only Q (ret a).
Proof. intros w e H. discriminate. Qed.

Lemma fails_only_gets (Q : Exn -> Prop) (f : World -> A) : fails_only Q (gets f).
Proof. intros w e H. discriminate. Qed.

Lemma fails_only_raise (Q : Exn -> Prop) (e : Exn) :
  Q e -> fails_only Q (@raise A e).
Proof. intros HQ w e' H. simpl in H. congruence. Qed.

Lemma fails_only_bind {B} (Q : Exn -> Prop) (m : M A) (k : A -> M B) :
  fails_only Q m -> (forall a, fails_only Q (k a)) -> fails_only Q (bind m k).
Proof.
  intros Hm Hk w e. specialize (Hm w). unfold bind.
  destruct (m w) as [[a|e'] w1]; simpl in *.
  - apply Hk.
  - intros H. apply Hm. congruence.
Qed.

Lemma keeps_ret {B} (f : World -> B) (a : A) : keeps f (ret a).
Proof. intros w. reflexivity. Qed.

Lemma keeps_raise {B} (f : World -> B) (e : Exn) : keeps f (@raise A e).
Proof. intros w. reflexivity. Qed.

Lemma keeps_gets {B} (f : World -> B) (g : World -> A) : keeps f (gets g).
Proof. intros w. reflexivity. Qed.

Lemma keeps_bind {B C} (f : World -> C) (m : M A) (k : A -> M B) :
  keeps f m -> (forall a, keeps f (k a)) -> keeps f (bind m k).
Proof.
  intros Hm Hk w. specialize (Hm w). unfold bind.
  destruct (m w) as [[a|e] w1]; simpl in *.
  - rewrite Hk. exact Hm.
  - exact Hm.
Qed.

End Bounds.

Lemma emits_emit (P : Event -> Prop) (e : Event) : P e -> emits P (emit e).
Proof. intros HP w. exists [e]. simpl. auto. Qed.

Lemma emits_modify (P : Event -> Prop) (f : World -> World) :
  (forall w, trace (f w) = trace w) -> emits P (modify f).
Proof. intros Hf w. exists []. simpl. now rewrite Hf, app_nil_r. Qed.

Lemma emits_when (P : Event -> Prop) (b : bool) (m : M unit) :
  emits P m -> emits P (when b m).
Proof. destruct b; simpl; [auto|intros _; apply emits_ret]. Qed.

Lemma emits_for_each {A} (P : Event -> Prop) (f : A -> M unit) (l : list A) :
  (forall x, emits P (f x)) -> emits P (for_each f l).
Proof.
  intros Hf. induction l; simpl; [apply emits_ret|].
  apply emits_bind; auto.
Qed.

Lemma fails_only_emit (Q : Exn -> Prop) (e : Event) : fails_only Q (emit e).
Proof. intros w e' H. discriminate. Qed.

Lemma fails_only_modify (Q : Exn -> Prop) (f : World -> World) :
  fails_only Q (modify f).
Proof. intros w e' H. discriminate. Qed.

Lemma fails_only_when (Q : Exn -> Prop) (b : bool) (m : M unit) :
  fails_only Q m -> fails_only Q (when b m).
Proof. destruct b; simpl; [auto|intros _; apply fails_only_ret]. Qed.

Lemma fails_only_for_each {A} (Q : Exn -> Prop) (f : A -> M unit) (l : list A) :
  (forall x, fails_only Q (f x)) -> fails_only Q (for_each f l).
Proof.
  intros Hf. induction l; simpl; [apply fails_only_ret|].
  apply fails_only_bind; auto.
Qed.

Lemma keeps_emit {B} (f : World -> B) (e : Event) :
  (forall w, f (add_event e w) = f w) -> keeps f (emit e).
Proof. intros Hf w. apply Hf. Qed.

Lemma keeps_modify {B} (f : World -> B) (g : World -> World) :
  (forall w, f (g w) = f w) -> keeps f (modify g).
Proof. intros Hf w. apply Hf. Qed.

Lemma keeps_when {B} (f : World -> B) (b : bool) (m : M unit) :
  keeps f m -> keeps f (when b m).
Proof. destruct b; simpl; [auto|intros _; apply keeps_ret]. Qed.

Lemma keeps_for_each {A B} (f : World -> B) (g : A -> M unit) (l : list A) :
  (forall x, keeps f (g x)) -> keeps f (for_each g l).
Proof.
  intros Hg. induction l; simpl; [apply keeps_ret|].
  apply keeps_bind; auto.
Qed.

(** One step of a syntax-directed proof of a bound. *)
Ltac bound_step :=
  cbv beta zeta;
  match goal with
  | |- emits _ (bind _ _) => apply emits_bind; [|intros ?]
  | |- emits _ (ret _) => apply emits_ret
  | |- emits _ (raise _) => apply emits_raise
  | |- emits _ (sys_exit _) => apply emits_raise
  | |- emits _ (gets _) => apply emits_gets
  | |- emits _ get_world => apply emits_gets
  | |- emits _ os_getuid => apply emits_gets
  | |- emits _ os_getgid => apply emits_gets
  | |- emits _ os_getcwd => apply emits_gets
  | |- emits _ (modify _) => apply emits_modify; intros ?; reflexivity
  | |- emits _ (emit _) => apply emits_emit
  | |- emits _ (log _ _) => apply emits_emit
  | |- emits _ log_shutdown => apply emits_emit
  | |- emits _ log_line => apply emits_emit
  | |- emits _ (when _ _) => apply emits_when
  | |- emits _ (for_each _ _) => apply emits_for_each; intros ?
  | |- fails_only _ (bind _ _) => apply fails_only_bind; [|intros ?]
  | |- fails_only _ (ret _) => apply fails_only_ret
  | |- fails_only _ (raise _) => apply fails_only_raise
  | |- fails_only _ (sys_exit _) => apply fails_only_raise
  | |- fails_only _ (gets _) => apply fails_only_gets
  | |- fails_only _ get_world => apply fails_only_gets
  | |- fails_only _ os_getuid => apply fails_only_gets
  | |- fails_only _ os_getgid => apply fails_only_gets
  | |- fails_only _ os_getcwd => apply fails_only_gets
  | |- fails_only _ (modify _) => apply fails_only_modify
  | |- fails_only _ (emit _) => apply fails_only_emit
  | |- fails_only _ (log _ _) => apply fails_only_emit
  | |- fails_only _ log_shutdown => apply fails_only_emit
  | |- fails_only _ log_line => apply fails_only_emit
  | |- fails_only _ (when _ _) => apply fails_only_when
  | |- fails_only _ (for_each _ _) => apply fails_only_for_each; intros ?
  | |- keeps _ (bind _ _) => apply keeps_bind; [|intros ?]
  | |- keeps _ (ret _) => apply keeps_ret
  | |- keeps _ (raise _) => apply keeps_raise
  | |- keeps _ (sys_exit _) => apply keeps_raise
  | |- keeps _ (gets _) => apply keeps_gets
  | |- keeps _ get_world => apply keeps_gets
  | |- keeps _ os_getuid => apply keeps_gets
  | |- keeps _ os_getgid => apply keeps_gets
  | |- keeps _ os_getcwd => apply keeps_gets
  | |- keeps _ (modify _) => apply keeps_modify; intros ?; reflexivity
  | |- keeps _ (emit _) => apply keeps_emit; intros ?; reflexivity
  | |- keeps _ (log _ _) => apply keeps_emit; intros ?; reflexivity
  | |- keeps _ log_shutdown => apply keeps_emit; intros ?; reflexivity
  | |- keeps _ log_line => apply keeps_emit; intros ?; reflexivity
  | |- keeps _ (when _ _) => apply keeps_when
  | |- keeps _ (for_each _ _) => apply keeps_for_each; intros ?
  | |- _ (if ?b then _ else _) => destruct b
  | |- _ (match ?x with _ => _ end) => destruct x
  end.

Ltac bound := repeat bound_step.

(** ** Running single steps *)

Lemma run_emit {B} (e : Event) (k : unit -> M B) (w : World) :
  bind (emit e) k w = k tt (add_event e w).
Proof. reflexivity. Qed.

Lemma run_gets {A B} (f : World -> A) (k : A -> M B) (w : World) :
  bind (gets f) k w = k (f w) w.
Proof. reflexivity. Qed.

Lemma uid_step_ret (env : Env) (v v' : PyVal) (w w' : World) :
  uid_step env v w = (Ret v', w') ->
  v' = match resolved_uid env v with
       | Some n => PInt n
       | None => PNone
       end.
Proof.
  destruct v as [|n|name]; simpl.
  - intros H. now inversion H.
  - unfold bind. destruct (set_uid env n w) as [[[]|e] w1]; intros H; now inversion H.
  - destruct (getpwnam env name) as [n|].
    + unfold bind.
      destruct (set_uid env n w) as [[[]|e] w1]; intros H; now inversion H.
    + intros H. discriminate.
Qed.

(** ** The anti-root guard *)

(** C1.  Let the uid step of [assume_uid] have completed in [w1] with the
    variable [uid] equal to [uid'], and let [os.getuid()] be 0 there.  If
    [uid'] is 0 the function logs the warning and goes on with the gid and
    umask steps; otherwise it logs the two critical lines (the second is the
    remediation hint), shuts the log down and raises [SystemExit(1)].
    [uid'] is 0 exactly when the request (argument or configured value)
    resolves to uid 0, which it does not when no uid was supplied at all. *)
Theorem anti_root_guard (env : Env) (uid gid umask : PyVal)
    (w w0 w1 : World) (um : option Z) (uid' : PyVal) :
  resolve_umask env umask (add_event (EvAssumeUid uid gid umask) w) = (Ret um, w0) ->
  uid_step env (try_int (or_setting env uid "uid")) w0 = (Ret uid', w1) ->
  p_uid (proc w1) = 0 ->
  (eq_zero uid' = true ->
     assume_uid env uid gid umask w =
     (gid_step env (try_int (or_setting env gid "gid")) ;;; umask_step um)
       (add_event (EvLog WARNING root_warning) w1))
  /\ (eq_zero uid' = false ->
      assume_uid env uid gid umask w =
      (Raise (SystemExit 1),
       add_event EvLogShutdown
         (add_event (EvLog CRITICAL root_remedy)
            (add_event (EvLog CRITICAL root_refused) w1)))
      /\ exit_status (assume_uid env uid gid umask w).1 = 1)
  /\ (eq_zero uid' = true <->
      resolved_uid env (try_int (or_setting env uid "uid")) = Some 0)
  /\ (or_setting env uid "uid" = PNone -> eq_zero uid' = false).
Proof.
  intros Hum Huid Hroot.
  assert (Hrun : assume_uid env uid gid umask w =
                 (anti_root uid' ;;;
                  gid_step env (try_int (or_setting env gid "gid")) ;;;
                  umask_step um) w1).
  { unfold assume_uid. rewrite run_emit.
    rewrite (bind_ret_l _ _ _ _ _ Hum). cbv beta.
    rewrite (bind_ret_l _ _ _ _ _ Huid). reflexivity. }
  pose proof (uid_step_ret _ _ _ _ _ Huid) as Hv.
  split; [|split; [|split]].
  - intros Hz. rewrite Hrun. unfold anti_root, os_getuid.
    rewrite bind_assoc, run_gets, Hroot. simpl Z.eqb. cbv iota.
    rewrite Hz. reflexivity.
  - intros Hz.
    assert (Hexit : assume_uid env uid gid umask w =
      (Raise (SystemExit 1),
       add_event EvLogShutdown
         (add_event (EvLog CRITICAL root_remedy)
            (add_event (EvLog CRITICAL root_refused) w1)))).
    { rewrite Hrun. unfold anti_root, os_getuid.
      rewrite bind_assoc, run_gets, Hroot. simpl Z.eqb. cbv iota.
      rewrite Hz. reflexivity. }
    split; [exact Hexit|]. rewrite Hexit. reflexivity.
  - rewrite Hv. destruct (resolved_uid env _) as [n|]; simpl.
    + rewrite Z.eqb_eq. split; congruence.
    + split; discriminate.
  - intros Hnone. rewrite Hv, Hnone. reflexivity.
Qed.

Lemma anti_root_guard_witness :
  (assume_uid (sample_env true no_settings [] [] None) PNone PNone PNone as_root).1
  = Raise (SystemExit 1)
  /\ (assume_uid (sample_env true no_settings [] [] None) (PStr "0") PNone PNone
        as_root).1 = Ret tt.
Proof.
  split.
  - destruct (anti_root_guard (sample_env true no_settings [] [] None)
                PNone PNone PNone as_root _ _ _ _ eq_refl eq_refl eq_refl)
      as (_ & H & _).
    destruct (H eq_refl) as [-> _]. reflexivity.
  - destruct (anti_root_guard (sample_env true no_settings [] [] None)
                (PStr "0") PNone PNone as_root _ _ _ _ eq_refl eq_refl eq_refl)
      as (H & _).
    rewrite (H eq_refl). reflexivity.
Defined.

(** ** The uid step when nothing has to change *)

Lemma resolve_umask_run (env : Env) (umask : PyVal) (w : World) :
  resolve_umask env umask w =
  match py_int (or_setting env umask "umask") with
  | Some z => (Ret (Some z), w)
  | None =>
      (Ret None,
       if truthy (or_setting env umask "umask")
       then add_event (EvLog WARNING (invalid_umask (or_setting env umask "umask"))) w
       else w)
  end.
Proof.
  unfold resolve_umask.
  destruct (py_int (or_setting env umask "umask")); [reflexivity|].
  destruct (truthy (or_setting env umask "umask")); reflexivity.
Qed.

Lemma set_uid_same (env : Env) (n : Z) (w : World) :
  p_uid (proc w) = n -> set_uid env n w = (Ret tt, w).
Proof.
  intros H. unfold set_uid, os_getuid. rewrite run_gets, H, Z.eqb_refl.
  reflexivity.
Qed.

Lemma uid_step_same (env : Env) (v : PyVal) (n : Z) (w : World) :
  resolved_uid env v = Some n -> p_uid (proc w) = n ->
  uid_step env v w = (Ret (PInt n), w).
Proof.
  intros Hv Hn. destruct v as [|m|name]; simpl in *.
  - discriminate.
  - injection Hv as ->. now rewrite (bind_ret_l _ _ _ _ _ (set_uid_same env n w Hn)).
  - rewrite Hv. now rewrite (bind_ret_l _ _ _ _ _ (set_uid_same env n w Hn)).
Qed.

Lemma after_uid_no_uid_change (env : Env) (uid gid : PyVal) (um : option Z) :
  emits no_uid_change (anti_root uid ;;; gid_step env gid ;;; umask_step um).
Proof.
  unfold anti_root, gid_step, set_gid, umask_step, os_umask.
  bound; split; reflexivity.
Qed.

Lemma after_uid_keeps_uid (env : Env) (uid gid : PyVal) (um : option Z) :
  keeps get_uid (anti_root uid ;;; gid_step env gid ;;; umask_step um).
Proof.
  unfold anti_root, gid_step, set_gid, umask_step, os_umask. bound.
Qed.

(** C7.  When the uid that the request resolves to is the uid the process
    already has, the uid step returns in the very world it started in: no
    [os.setuid] call, no log line, no change of identity.  Over the whole of
    [assume_uid] no [os.setuid] call and no "Assuming the UID" line occur
    and [os.getuid()] is what it was. *)
Theorem same_uid_is_silent (env : Env) (uid gid umask : PyVal) (w : World) :
  resolved_uid env (try_int (or_setting env uid "uid")) = Some (p_uid (proc w)) ->
  (forall w0, p_uid (proc w0) = p_uid (proc w) ->
     uid_step env (try_int (or_setting env uid "uid")) w0
     = (Ret (PInt (p_uid (proc w))), w0))
  /\ (exists evs,
        trace (assume_uid env uid gid umask w).2
        = trace w ++ EvAssumeUid uid gid umask :: evs
        /\ Forall no_uid_change evs)
  /\ p_uid (proc (assume_uid env uid gid umask w).2) = p_uid (proc w).
Proof.
  intros Hres.
  assert (Hstep : forall w0, p_uid (proc w0) = p_uid (proc w) ->
            uid_step env (try_int (or_setting env uid "uid")) w0
            = (Ret (PInt (p_uid (proc w))), w0)).
  { intros w0 H0. now apply uid_step_same. }
  split; [exact Hstep|].
  set (rest := fun um =>
         anti_root (PInt (p_uid (proc w))) ;;;
         gid_step env (try_int (or_setting env gid "gid")) ;;;
         umask_step um).
  assert (Hrun : forall um w0, p_uid (proc w0) = p_uid (proc w) ->
            (uid' <- uid_step env (try_int (or_setting env uid "uid")) ;;
             anti_root uid' ;;;
             gid_step env (try_int (or_setting env gid "gid")) ;;;
             umask_step um) w0 = rest um w0).
  { intros um w0 H0. now rewrite (bind_ret_l _ _ _ _ _ (Hstep w0 H0)). }
  assert (Hfull : exists um w0 pre,
            assume_uid env uid gid umask w = rest um w0
            /\ p_uid (proc w0) = p_uid (proc w)
            /\ trace w0 = trace w ++ EvAssumeUid uid gid umask :: pre
            /\ Forall no_uid_change pre).
  { unfold assume_uid. rewrite run_emit. unfold bind at 1.
    rewrite resolve_umask_run.
    set (v := or_setting env umask "umask").
    set (w1 := add_event (EvAssumeUid uid gid umask) w).
    destruct (py_int v) as [z|]; [|destruct (truthy v)].
    - exists (Some z), w1, []. split; [now apply Hrun|]. repeat split; auto.
    - eexists None, _, [_]. split; [now apply Hrun|]. split; [reflexivity|].
      split; [simpl; now rewrite <- app_assoc|]. repeat constructor.
    - exists None, w1, []. split; [now apply Hrun|]. repeat split; auto. }
  destruct Hfull as (um & w0 & pre & -> & Hu & Ht & Hpre).
  destruct (after_uid_no_uid_change env (PInt (p_uid (proc w)))
              (try_int (or_setting env gid "gid")) um w0) as (evs & Hevs & Hall).
  fold (rest um) in Hevs. split.
  - exists (pre ++ evs). rewrite Hevs, Ht.
    split; [now rewrite <- app_assoc|]. apply Forall_app; auto.
  - pose proof (after_uid_keeps_uid env (PInt (p_uid (proc w)))
                  (try_int (or_setting env gid "gid")) um w0) as Hk.
    fold (rest um) in Hk. unfold get_uid in Hk. now rewrite Hk.
Qed.

Lemma same_uid_is_silent_witness :
  uid_step (sample_env true no_settings [] [] None)
    (try_int (or_setting (sample_env true no_settings [] [] None) (PStr "mud") "uid"))
    as_mud
  = (Ret (PInt 1000), as_mud).
Proof.
  destruct (same_uid_is_silent (sample_env true no_settings [] [] None)
              (PStr "mud") PNone PNone as_mud eq_refl) as (H & _).
  exact (H as_mud eq_refl).
Defined.

(** ** The umask *)

Lemma bind_ret_inv {A B} (m : M A) (k : A -> M B) (w w' : World) (b : B) :
  bind m k w = (Ret b, w') ->
  exists a w1, m w = (Ret a, w1) /\ k a w1 = (Ret b, w').
Proof.
  unfold bind. destruct (m w) as [[a|e] w1]; [eauto|discriminate].
Qed.

Lemma bind_ret_tt_r (m : M unit) (w : World) :
  bind m (fun _ => ret tt) w = m w.
Proof. unfold bind. destruct (m w) as [[[]|e] w']; reflexivity. Qed.

Lemma assume_uid_run (env : Env) (uid gid umask : PyVal) (w : World) :
  assume_uid env uid gid umask w =
  match py_int (or_setting env umask "umask") with
  | Some z =>
      identity_steps env uid gid (Some z) (add_event (EvAssumeUid uid gid umask) w)
  | None =>
      identity_steps env uid gid None
        (if truthy (or_setting env umask "umask")
         then add_event (EvLog WARNING (invalid_umask (or_setting env umask "umask")))
                (add_event (EvAssumeUid uid gid umask) w)
         else add_event (EvAssumeUid uid gid umask) w)
  end.
Proof.
  unfold assume_uid. rewrite run_emit. unfold bind at 1.
  rewrite resolve_umask_run.
  destruct (py_int (or_setting env umask "umask")); reflexivity.
Qed.








(** ** The plugin loader *)

Lemma imports_of_app (t1 t2 : list Event) :
  imports_of (t1 ++ t2) = imports_of t1 ++ imports_of t2.
Proof.
  induction t1 as [|e t1 IH]; simpl; [reflexivity|].
  destruct e; simpl; rewrite IH; reflexivity.
Qed.

Lemma import_module_run (env : Env) (fn full : string) (w : World) :
  import_module env fn full w =
  if import_ok env (pymodules w) fn then
    (Ret tt,
     MkWorld (proc w) (cwd w) (<[fn := Module_ fn]> (pymodules w))
       (trace w ++ [EvLog DEBUG (importing fn); EvImport fn]))
  else
    (Raise (SystemExit 1),
     MkWorld (proc w) (cwd w) (pymodules w)
       (trace w ++ [EvLog DEBUG (importing fn); EvImport fn;
                    EvLog EXCEPTION (import_error fn full); EvLogShutdown])).
Proof.
  unfold import_module, log, log_shutdown, sys_exit, get_world.
  rewrite !run_emit, run_gets. unfold add_event at 1 2. cbn [pymodules].
  destruct (import_ok env (pymodules w) fn).
  - unfold modify, set_pymodules. cbn. now rewrite <- app_assoc.
  - rewrite !run_emit. unfold raise, add_event. cbn. now rewrite <- !app_assoc.
Qed.

Lemma load_entry_run (env : Env) (path fn : string) (w : World) :
  load_entry env path fn w =
  if skipped env (cwd w) fn (os_path_join path fn) then (Ret tt, w)
  else import_module env (trim_py fn) (os_path_join path fn) w.
Proof.
  unfold load_entry, get_world. rewrite run_gets.
  destruct (skipped env (cwd w) fn (os_path_join path fn)); reflexivity.
Qed.

Lemma record_all_snoc (names : list string) (n : string) (m : gmap string PyModule) :
  record_all (names ++ [n]) m = <[n := Module_ n]> (record_all names m).
Proof. unfold record_all. now rewrite fold_left_app. Qed.

(** What the loop has done when it comes out of the entries [fns]
    normally. *)
Lemma load_entries_done (env : Env) (path : string) (fns : list string)
    (w w' : World) :
  for_each (load_entry env path) fns w = (Ret tt, w') ->
  proc w' = proc w /\ cwd w' = cwd w
  /\ imports_of (trace w') = imports_of (trace w) ++ plan env (cwd w) path fns
  /\ pymodules w' = record_all (plan env (cwd w) path fns) (pymodules w).
Proof.
  revert w. induction fns as [|fn fns IH]; intros w; simpl.
  - intros H. injection H as <-. unfold plan. simpl. now rewrite app_nil_r.
  - intros H. apply bind_ret_inv in H. destruct H as ([] & w1 & H1 & H2).
    rewrite load_entry_run in H1. unfold plan. simpl.
    destruct (skipped env (cwd w) fn (os_path_join path fn)) eqn:Hs; simpl.
    + injection H1 as <-. now apply IH.
    + rewrite import_module_run in H1.
      destruct (import_ok env (pymodules w) (trim_py fn)); [|discriminate].
      injection H1 as <-. apply IH in H2. simpl in H2.
      destruct H2 as (Hp & Hc & Hi & Hm). repeat split; auto.
      rewrite Hi, imports_of_app. simpl. now rewrite <- app_assoc.
Qed.

(** Whatever happens, the names passed to [__import__] are an initial
    segment of the plan. *)
Lemma load_entries_prefix (env : Env) (path : string) (fns : list string)
    (w : World) :
  exists tried,
    imports_of (trace (for_each (load_entry env path) fns w).2)
    = imports_of (trace w) ++ tried
    /\ tried `prefix_of` plan env (cwd w) path fns
    /\ ((for_each (load_entry env path) fns w).1 = Ret tt ->
        tried = plan env (cwd w) path fns).
Proof.
  revert w. induction fns as [|fn fns IH]; intros w; simpl.
  - exists []. rewrite app_nil_r. repeat split; auto.
  - unfold bind. rewrite load_entry_run. unfold plan. simpl.
    destruct (skipped env (cwd w) fn (os_path_join path fn)) eqn:Hs; simpl.
    + apply IH.
    + rewrite import_module_run.
      destruct (import_ok env (pymodules w) (trim_py fn)).
      * match goal with |- context [for_each _ fns ?w1] =>
          destruct (IH w1) as (tried & Ht & Hp & Hr) end.
        simpl in Hp, Hr. exists (trim_py fn :: tried). split; [|split].
        -- rewrite Ht. simpl. rewrite imports_of_app. simpl.
           now rewrite <- app_assoc.
        -- now apply prefix_cons.
        -- intros H. f_equal. now apply Hr.
      * exists [trim_py fn]. simpl. split; [|split].
        -- now rewrite imports_of_app.
        -- apply prefix_cons, prefix_nil.
        -- discriminate.
Qed.




(** ** The order of loading *)

(** C3.  The scan goes through the sorted directory listing, a sorted
    rearrangement of what [os.listdir] returned.  An entry whose name starts
    with a dot, a file whose name does not end in [.py] and a directory
    without [__init__.py] are passed over without any effect.  The name of a
    file ending in [.py] loses that suffix.  The names passed to
    [__import__] are, in order, an initial segment of the trimmed names of
    the entries not passed over, and all of them when the scan returns.  On
    the listing of the example the imports are [a], [b], [pkg2]. *)
Theorem scan_order :
  (forall (env : Env) (path : string) (w : World),
     Sorted le_str (sorted (listdir env (cwd w) "pymodules"))
     /\ Permutation (listdir env (cwd w) "pymodules")
                    (sorted (listdir env (cwd w) "pymodules"))
     /\ (forall fn,
           startswith fn "." = true
           \/ (path_isfile env (cwd w) (os_path_join path fn) = true
               /\ endswith fn ".py" = false)
           \/ (path_isdir env (cwd w) (os_path_join path fn) = true
               /\ path_exists env (cwd w)
                    (os_path_join (os_path_join path fn) "__init__.py") = false) ->
           forall w0, cwd w0 = cwd w -> load_entry env path fn w0 = (Ret tt, w0))
     /\ (forall fn, endswith fn ".py" = true -> trim_py fn +:+ ".py" = fn)
     /\ exists tried,
          imports_of (trace (scan_pymodules env path w).2)
          = imports_of (trace w) ++ tried
          /\ tried `prefix_of`
               plan env (cwd w) path (sorted (listdir env (cwd w) "pymodules"))
          /\ ((scan_pymodules env path w).1 = Ret tt ->
              tried = plan env (cwd w) path (sorted (listdir env (cwd w) "pymodules"))))
  /\ sorted claimed_listing = [".hidden.py"; "a.py"; "b.py"; "pkg2"; "pkgdir"]
  /\ imports_of
       (trace (scan_pymodules (sample_env true no_settings claimed_listing [] None)
                 "/srv/lib/pymodules" in_library).2)
     = ["a"; "b"; "pkg2"]
  /\ imports_of
       (trace (main (sample_env true no_settings claimed_listing [] None)
                 (sample_args (Some "mud") None false) as_mud).2)
     = ["a"; "b"; "pkg2"].
Proof.
  split; [|repeat split; vm_compute; reflexivity].
  intros env path w. split; [apply sorted_Sorted|].
  split; [apply sorted_Permutation|]. split; [|split].
  - intros fn Hfn w0 Hc. rewrite load_entry_run, Hc.
    replace (skipped env (cwd w) fn (os_path_join path fn)) with true; [reflexivity|].
    unfold skipped. destruct Hfn as [->|[[-> ->]|[-> ->]]]; simpl;
      [reflexivity|now rewrite orb_true_r|now rewrite orb_true_r].
  - intros fn Hfn. unfold trim_py. rewrite Hfn. now apply endswith_py_split.
  - unfold scan_pymodules, get_world. rewrite run_gets. apply load_entries_prefix.
Qed.

Lemma scan_order_witness :
  load_entry (sample_env true no_settings claimed_listing [] None)
    "/srv/lib/pymodules" "pkgdir" in_library
  = (Ret tt, in_library)
  /\ trim_py "a.py" +:+ ".py" = "a.py".
Proof.
  destruct scan_order as (H & _).
  destruct (H (sample_env true no_settings claimed_listing [] None)
              "/srv/lib/pymodules" in_library) as (_ & _ & Hskip & Htrim & _).
  split.
  - apply Hskip; [|reflexivity]. right. right. split; reflexivity.
  - apply Htrim. reflexivity.
Defined.

(** C10.  For a directory entry whose name ends in [.py] and which holds
    [__init__.py], the name without the suffix differs from the name on disk,
    and it is the only name the loop body ever passes to [__import__] for that
    entry: it does so exactly once, unless the name starts with a dot, in
    which case the entry is passed over. *)
Theorem package_directory_is_trimmed (env : Env) (path fn : string) (w : World) :
  endswith fn ".py" = true ->
  path_isdir env (cwd w) (os_path_join path fn) = true ->
  path_exists env (cwd w) (os_path_join (os_path_join path fn) "__init__.py") = true ->
  drop_last3 fn +:+ ".py" = fn
  /\ drop_last3 fn <> fn
  /\ imports_of (trace (load_entry env path fn w).2)
     = imports_of (trace w) ++ (if startswith fn "." then [] else [drop_last3 fn])
  /\ (startswith fn "." = false ->
      load_entry env path fn w
      = import_module env (drop_last3 fn) (os_path_join path fn) w).
Proof.
  intros Hpy Hdir Hinit.
  split; [now apply endswith_py_split|].
  split; [now apply drop_last3_differs|].
  assert (Hs : skipped env (cwd w) fn (os_path_join path fn) = startswith fn ".").
  { unfold skipped. rewrite Hpy, Hdir, Hinit. simpl.
    now rewrite andb_false_r, !orb_false_r. }
  rewrite load_entry_run, Hs. unfold trim_py. rewrite Hpy.
  split.
  - destruct (startswith fn "."); simpl; [now rewrite app_nil_r|].
    rewrite import_module_run.
    destruct (import_ok env (pymodules w) (drop_last3 fn)); simpl;
      now rewrite imports_of_app.
  - intros ->. reflexivity.
Qed.

Lemma package_directory_is_trimmed_witness :
  imports_of
    (trace (load_entry (sample_env true no_settings ["ext.py"] [] None)
              "/srv/lib/pymodules" "ext.py" in_library).2)
  = ["ext"].
Proof.
  destruct (package_directory_is_trimmed
              (sample_env true no_settings ["ext.py"] [] None)
              "/srv/lib/pymodules" "ext.py" in_library eq_refl eq_refl eq_refl)
    as (_ & _ & H & _).
  exact H.
Defined.

(** ** The phases of [main] *)

Lemma count_app (p : Event -> bool) (t1 t2 : list Event) :
  count p (t1 ++ t2) = (count p t1 + count p t2)%nat.
Proof. unfold count. now rewrite List.filter_app, length_app. Qed.

Lemma count_none (p : Event -> bool) (t : list Event) :
  Forall (fun e => p e = false) t -> count p t = 0%nat.
Proof.
  unfold count. induction 1 as [|e t He _ IH]; simpl; [reflexivity|].
  now rewrite He.
Qed.

Lemma adds_of_emits {A} (p : Event -> bool) (m : M A) :
  emits (fun e => p e = false) m -> adds p 0 m.
Proof.
  intros Hm w a w' Hrun. destruct (Hm w) as (evs & Ht & Hall).
  rewrite Hrun in Ht. simpl in Ht. now rewrite Ht, count_app, (count_none _ _ Hall).
Qed.

Lemma adds_sequence_nil (p : Event -> bool) : adds p 0 (sequence []).
Proof. intros w a w' H. injection H as _ <-. lia. Qed.

Lemma adds_sequence_cons (p : Event -> bool) (n n' : nat) (m : M unit)
    (l : list (M unit)) :
  adds p n m -> adds p n' (sequence l) -> adds p (n + n') (sequence (m :: l)).
Proof.
  intros Hm Hl w a w' Hrun. unfold sequence in Hrun. simpl in Hrun.
  apply bind_ret_inv in Hrun. destruct Hrun as (a1 & w1 & H1 & H2).
  apply Hm in H1. apply Hl in H2. lia.
Qed.

Lemma identity_steps_ordinary (env : Env) (uid gid : PyVal) (um : option Z) :
  emits ordinary (identity_steps env uid gid um).
Proof.
  unfold identity_steps, uid_step, set_uid, anti_root, gid_step, set_gid,
    umask_step, os_umask.
  bound; repeat split; reflexivity.
Qed.

Lemma assume_uid_trace (env : Env) (uid gid umask : PyVal) (w : World) :
  exists evs,
    trace (assume_uid env uid gid umask w).2
    = trace w ++ EvAssumeUid uid gid umask :: evs
    /\ Forall ordinary evs.
Proof.
  rewrite assume_uid_run.
  destruct (py_int (or_setting env umask "umask")) as [z|];
    [|destruct (truthy (or_setting env umask "umask"))];
    match goal with |- context [identity_steps env uid gid ?um ?w1] =>
      destruct (identity_steps_ordinary env uid gid um w1) as (evs & Ht & Hall)
    end; rewrite Ht; simpl; rewrite <- ?app_assoc; simpl.
  - eauto.
  - eexists. split; [reflexivity|]. constructor; [repeat split|exact Hall].
  - eauto.
Qed.


Lemma load_library_ordinary (env : Env) : emits ordinary (load_library env).
Proof.
  unfold load_library, import_stmt, scan_pymodules, load_entry, import_module,
    os_path_exists, os_path_abspath.
  bound; repeat split; reflexivity.
Qed.


(** The phases other than the two identity phases. *)
Lemma plain_phases_ordinary (env : Env) (args : Args) :
  emits ordinary (logging env args)
  /\ emits ordinary (enter_library env args)
  /\ emits ordinary load_configuration
  /\ emits ordinary (network_initialization args)
  /\ emits ordinary (nakedmud_compatibility env)
  /\ emits ordinary copyover_recovery
  /\ emits ordinary (register_signals env)
  /\ emits ordinary enter_loop.
Proof.
  unfold logging, enter_library, load_configuration, network_initialization,
    nakedmud_compatibility, inject, copyover_recovery, register_signals,
    enter_loop.
  repeat split; bound; repeat split; reflexivity.
Qed.


Lemma ordinary_adds {A} (p : Event -> bool) (m : M A) :
  (forall e, ordinary e -> p e = false) -> emits ordinary m -> adds p 0 m.
Proof.
  intros Hp Hm. apply adds_of_emits. revert Hm. now apply emits_weaken.
Qed.

Lemma assume_uid_adds_marker (env : Env) (uid gid umask : PyVal) :
  adds is_assume_uid 1 (assume_uid env uid gid umask).
Proof.
  intros w a w' Hrun.
  destruct (assume_uid_trace env uid gid umask w) as (evs & Ht & Hall).
  rewrite Hrun in Ht. simpl in Ht.
  rewrite Ht, count_app. f_equal.
  change (EvAssumeUid uid gid umask :: evs) with ([EvAssumeUid uid gid umask] ++ evs).
  rewrite count_app, (count_none is_assume_uid evs); [reflexivity|].
  eapply Forall_impl; [exact Hall|]. now intros e (_ & _ & He).
Qed.

Lemma assume_uid_adds_no_hook (env : Env) (uid gid umask : PyVal) :
  adds is_hooks_run 0 (assume_uid env uid gid umask).
Proof.
  intros w a w' Hrun.
  destruct (assume_uid_trace env uid gid umask w) as (evs & Ht & Hall).
  rewrite Hrun in Ht. simpl in Ht.
  rewrite Ht, count_app. f_equal.
  apply count_none. constructor; [reflexivity|].
  eapply Forall_impl; [exact Hall|]. now intros e (He & _).
Qed.

Lemma adds_ret (p : Event -> bool) : adds p 0 (ret tt).
Proof. intros w a w' H. injection H as _ <-. lia. Qed.

(** No phase before the loop runs the shutdown hooks. *)
Lemma phases_add_no_hook (env : Env) (args : Args) :
  adds is_hooks_run 0 (sequence (phases env args)).
Proof.
  destruct (plain_phases_ordinary env args)
    as (H1 & H2 & H3 & H4 & H5 & H6 & H7 & H8).
  pose proof (load_library_ordinary env) as H9.
  assert (Hp : forall e, ordinary e -> is_hooks_run e = false) by now intros e (He & _).
  assert (He : adds is_hooks_run 0 (early_identity env args)).
  { unfold early_identity. destruct (do_uid env && a_early args); simpl;
      [apply assume_uid_adds_no_hook|apply adds_ret]. }
  assert (Hl : adds is_hooks_run 0 (late_identity env args)).
  { unfold late_identity. destruct (do_uid env && negb (a_early args)); simpl;
      [apply assume_uid_adds_no_hook|apply adds_ret]. }
  unfold phases, startup_phases. simpl app.
  repeat (apply (adds_sequence_cons is_hooks_run 0 0);
          [first [assumption | apply (ordinary_adds _ _ Hp); assumption]|]).
  apply adds_sequence_nil.
Qed.

(** The phases before the loop enter [assume_uid] once where [os.getuid]
    exists and never where it does not. *)
Lemma phases_add_marker (env : Env) (args : Args) :
  adds is_assume_uid (if do_uid env then 1 else 0) (sequence (phases env args)).
Proof.
  destruct (plain_phases_ordinary env args)
    as (H1 & H2 & H3 & H4 & H5 & H6 & H7 & H8).
  pose proof (load_library_ordinary env) as H9.
  assert (Hp : forall e, ordinary e -> is_assume_uid e = false)
    by now intros e (_ & _ & He).
  assert (He : adds is_assume_uid (if do_uid env && a_early args then 1 else 0)
                 (early_identity env args)).
  { unfold early_identity. destruct (do_uid env && a_early args); simpl;
      [apply assume_uid_adds_marker|apply adds_ret]. }
  assert (Hl : adds is_assume_uid
                 (if do_uid env && negb (a_early args) then 1 else 0)
                 (late_identity env args)).
  { unfold late_identity. destruct (do_uid env && negb (a_early args)); simpl;
      [apply assume_uid_adds_marker|apply adds_ret]. }
  replace (if do_uid env then 1 else 0)%nat
    with (0 + (0 + (0 + (0 + ((if do_uid env && a_early args then 1 else 0)
          + (0 + (0 + (0 + (0 + ((if do_uid env && negb (a_early args) then 1 else 0)
          + (0 + 0)))))))))))%nat
    by (destruct (do_uid env), (a_early args); reflexivity).
  unfold phases, startup_phases. simpl app.
  repeat (apply adds_sequence_cons;
          [first [assumption | apply (ordinary_adds _ _ Hp); assumption]|]).
  apply adds_sequence_nil.
Qed.


(** ** The run loop and the shutdown *)

Lemma run_loop_engine (env : Env) (w : World) :
  run_loop (engine_start env) w =
  match engine_outcome env with
  | None | Some (SystemExit _) => (Ret false, add_event EvEngineStart w)
  | Some SystemCopyover => (Ret true, add_event EvEngineStart w)
  | Some KeyboardInterrupt =>
      (Ret false, add_event (EvPrint "") (add_event EvEngineStart w))
  | Some (PyException what) => (Raise (PyException what), add_event EvEngineStart w)
  end.
Proof.
  unfold run_loop, engine_start, try_except. rewrite bind_assoc, run_emit.
  destruct (engine_outcome env) as [[]|]; reflexivity.
Qed.

Lemma shutdown_run (begin_copyover : bool) (w : World) :
  shutdown begin_copyover w =
  (Raise (SystemExit 0),
   MkWorld (proc w) (cwd w) (pymodules w)
     (trace w ++ EvLogLine
        :: (if begin_copyover then [EvLog TODO copyover_todo] else [])
        ++ [EvHooksRun "shutdown"; EvLog INFO exiting_normally; EvLogShutdown])).
Proof.
  unfold shutdown, log_line, log, log_shutdown, sys_exit.
  rewrite run_emit. destruct begin_copyover; simpl when.
  - rewrite !run_emit. unfold raise, add_event. cbn.
    now rewrite <- !app_assoc.
  - unfold bind at 1. cbn [ret]. rewrite !run_emit. unfold raise, add_event. cbn.
    now rewrite <- !app_assoc.
Qed.

Lemma main_reaches_loop (env : Env) (args : Args) (w w1 : World) :
  sequence (phases env args) w = (Ret tt, w1) ->
  main env args w
  = (begin_copyover <- run_loop (engine_start env) ;; shutdown begin_copyover) w1.
Proof. intros H. unfold main. now rewrite (bind_ret_l _ _ _ _ _ H). Qed.


(** C5.  Take a run whose phases before the loop all return, and let the
    engine end in a way that the [try] statement maps to one of the three
    control events.  Then the loop returns some [begin_copyover] in a world
    [w2] in which no shutdown hook has run yet, [main] continues there with
    the shutdown code, whose trace contains the single
    [hooks.run("shutdown")], placed after the engine start; over the whole
    run the hooks are run exactly once. *)
Theorem shutdown_hooks_once (env : Env) (args : Args) (w w1 : World)
    (ce : ControlEvent) :
  sequence (phases env args) w = (Ret tt, w1) ->
  control_event (engine_outcome env) = Some ce ->
  exists begin_copyover w2 mid,
    run_loop (engine_start env) w1 = (Ret begin_copyover, w2)
    /\ main env args w = shutdown begin_copyover w2
    /\ trace w2 = trace w1 ++ EvEngineStart :: mid
    /\ count is_hooks_run (trace w2) = count is_hooks_run (trace w)
    /\ trace (main env args w).2
       = trace w2 ++ EvLogLine
           :: (if begin_copyover then [EvLog TODO copyover_todo] else [])
           ++ [EvHooksRun "shutdown"; EvLog INFO exiting_normally; EvLogShutdown]
    /\ count is_hooks_run (trace (main env args w).2)
       = S (count is_hooks_run (trace w))
    /\ (begin_copyover = true <-> ce = CopyoverRequested).
Proof.
  intros Hseq Hce.
  pose proof (phases_add_no_hook env args w tt w1 Hseq) as Hcount.
  rewrite Nat.add_0_r in Hcount.
  rewrite (main_reaches_loop _ _ _ _ Hseq).
  assert (Hloop : exists bc mid,
            run_loop (engine_start env) w1
            = (Ret bc, MkWorld (proc w1) (cwd w1) (pymodules w1)
                         (trace w1 ++ EvEngineStart :: mid))
            /\ Forall (fun e => is_hooks_run e = false) mid
            /\ (bc = true <-> ce = CopyoverRequested)).
  { rewrite run_loop_engine. unfold add_event. cbn.
    destruct (engine_outcome env) as [[c| | |what]|]; simpl in Hce;
      try discriminate; injection Hce as <-.
    - exists false, []. repeat split; auto; discriminate.
    - exists true, []. repeat split; auto.
    - exists false, [EvPrint ""]. rewrite <- app_assoc.
      repeat split; auto; discriminate.
    - exists false, []. repeat split; auto; discriminate. }
  destruct Hloop as (bc & mid & Hrun & Hmid & Hbc).
  eexists bc, _, mid. split; [exact Hrun|].
  rewrite (bind_ret_l _ _ _ _ _ Hrun), shutdown_run. cbn [trace fst snd].
  split; [reflexivity|]. split; [reflexivity|].
  assert (Hw2 : count is_hooks_run (trace w1 ++ EvEngineStart :: mid)
                = count is_hooks_run (trace w)).
  { rewrite count_app, Hcount.
    rewrite (count_none is_hooks_run (EvEngineStart :: mid)); [lia|].
    now constructor. }
  split; [exact Hw2|]. split; [reflexivity|]. split; [|exact Hbc].
  rewrite count_app, Hw2. destruct bc; cbn; lia.
Qed.

Lemma shutdown_hooks_once_witness :
  count is_hooks_run
    (trace (main (sample_env true no_settings claimed_listing [] (Some KeyboardInterrupt))
              (sample_args (Some "mud") None false) as_root).2)
  = 1%nat.
Proof.
  destruct (shutdown_hooks_once
              (sample_env true no_settings claimed_listing [] (Some KeyboardInterrupt))
              (sample_args (Some "mud") None false) as_root
              (sequence (phases (sample_env true no_settings claimed_listing []
                                   (Some KeyboardInterrupt))
                           (sample_args (Some "mud") None false)) as_root).2
              Interrupted ltac:(vm_compute; reflexivity) eq_refl)
    as (bc & w2 & mid & _ & _ & _ & _ & _ & H & _).
  exact H.
Defined.

(** ** Exit statuses *)






(** [assume_uid] reaches the uid step with the identity it started with. *)
Lemma assume_uid_reaches_uid_step (env : Env) (uid gid umask : PyVal) (w : World) :
  exists um w0,
    proc w0 = proc w
    /\ assume_uid env uid gid umask w = identity_steps env uid gid um w0.
Proof.
  rewrite assume_uid_run.
  destruct (py_int (or_setting env umask "umask")) as [z|];
    [|destruct (truthy (or_setting env umask "umask"))];
    eexists _, _; (split; [|reflexivity]); reflexivity.
Qed.



(** ** The two identity phases *)

(** C9, as the code has it.  Where [os.getuid] exists, the phase chosen by
    [--early] is [assume_uid] on the three arguments and the other one does
    nothing; a run whose phases before the loop all return has entered
    [assume_uid] exactly once.  Where [os.getuid] does not exist both phases
    do nothing and [assume_uid] is never entered. *)
Theorem identity_phase_selection (env : Env) (args : Args) :
  (do_uid env = true ->
     (a_early args = true ->
        early_identity env args
        = assume_uid env (of_arg (a_uid args)) (of_arg (a_gid args))
            (of_arg (a_umask args))
        /\ late_identity env args = ret tt)
     /\ (a_early args = false ->
         early_identity env args = ret tt
         /\ late_identity env args
            = assume_uid env (of_arg (a_uid args)) (of_arg (a_gid args))
                (of_arg (a_umask args)))
     /\ (forall w w1,
           sequence (phases env args) w = (Ret tt, w1) ->
           count is_assume_uid (trace w1) = S (count is_assume_uid (trace w))))
  /\ (do_uid env = false ->
      early_identity env args = ret tt
      /\ late_identity env args = ret tt
      /\ (forall w w1,
            sequence (phases env args) w = (Ret tt, w1) ->
            count is_assume_uid (trace w1) = count is_assume_uid (trace w))).
Proof.
  split; intros Hdo.
  - split; [|split].
    + intros He. unfold early_identity, late_identity. now rewrite Hdo, He.
    + intros He. unfold early_identity, late_identity. now rewrite Hdo, He.
    + intros w w1 Hseq. pose proof (phases_add_marker env args w tt w1 Hseq) as H.
      rewrite Hdo in H. lia.
  - unfold early_identity, late_identity. rewrite Hdo. split; [reflexivity|].
    split; [reflexivity|].
    intros w w1 Hseq. pose proof (phases_add_marker env args w tt w1 Hseq) as H.
    rewrite Hdo in H. lia.
Qed.

Lemma identity_phase_selection_witness :
  count is_assume_uid
    (trace (sequence (phases (sample_env true no_settings claimed_listing [] None)
                        (sample_args (Some "mud") None true)) as_root).2)
  = 1%nat.
Proof.
  destruct (identity_phase_selection
              (sample_env true no_settings claimed_listing [] None)
              (sample_args (Some "mud") None true)) as (H & _).
  destruct (H eq_refl) as (_ & _ & Hcount).
  refine (Hcount as_root _ _). vm_compute. reflexivity.
Defined.

(** C9 as stated fails where [os.getuid] does not exist: the run goes
    through to exit status 0 and neither phase has entered [assume_uid].  It
    also fails for a late transition when a plugin import raises: the run
    ends before the late phase. *)
Lemma run_without_identity_transition :
  (exit_status
     (main (sample_env false no_settings claimed_listing [] None)
        (sample_args (Some "mud") None false) as_mud).1 = 0
   /\ count is_assume_uid
        (trace (main (sample_env false no_settings claimed_listing [] None)
                  (sample_args (Some "mud") None false) as_mud).2) = 0%nat)
  /\ (exit_status
        (main (sample_env true no_settings claimed_listing ["a"] None)
           (sample_args (Some "mud") None false) as_mud).1 = 1
      /\ count is_assume_uid
           (trace (main (sample_env true no_settings claimed_listing ["a"] None)
                     (sample_args (Some "mud") None false) as_mud).2) = 0%nat).
Proof. vm_compute. repeat split. Qed.

(** ** SIGHUP *)

Lemma bind_congr_l {A B} (m1 m2 : M A) (k : A -> M B) (w : World) :
  m1 w = m2 w -> bind m1 k w = bind m2 k w.
Proof. intros H. unfold bind. now rewrite H. Qed.

Lemma main_supervise (env : Env) (args : Args) (w : World) :
  main env args w
  = (sequence (startup_phases env args) ;;; supervise env never args) w.
Proof.
  unfold main, phases, sequence.
  rewrite (bind_congr_l _ _ _ _ (for_each_app _ _ _ _)).
  rewrite bind_assoc. apply bind_ext. intros _ w1.
  simpl for_each. unfold supervise, never, delivered.
  rewrite bind_assoc. apply bind_ext. intros _ w2.
  rewrite bind_assoc. apply bind_ext. intros _ w3.
  reflexivity.
Qed.

(** C4, as the code has it.  The handler writes nothing and raises
    [SystemCopyover].  Raised inside [pants.engine.start()] it is caught by
    the [try] statement, which sets [begin_copyover]; with no other delivery
    the rest of [main] then logs the copyover once, runs the shutdown hooks
    once and raises [SystemExit(0)]. *)
Theorem sighup_requests_copyover (env : Env) (args : Args) :
  (forall signum frame w, signal_HUP signum frame w = (Raise SystemCopyover, w))
  /\ (forall w,
        run_loop (engine_start_hup env true) w = (Ret true, add_event EvEngineStart w))
  /\ (forall w w1,
        late_identity env args w = (Ret tt, w1) ->
        supervise env only_in_loop args w
        = (Raise (SystemExit 0),
           MkWorld (proc w1) (cwd w1) (pymodules w1)
             (trace w1 ++ [EvLog INFO entering_loop; EvLogLine; EvEngineStart;
                           EvLogLine; EvLog TODO copyover_todo;
                           EvHooksRun "shutdown"; EvLog INFO exiting_normally;
                           EvLogShutdown]))).
Proof.
  split; [reflexivity|]. split; [reflexivity|].
  intros w w1 Hlate. unfold supervise, only_in_loop, delivered.
  rewrite (bind_ret_l _ _ _ _ _ Hlate).
  cbv [enter_loop log log_line run_loop engine_start_hup delivered signal_HUP
       try_except bind emit raise ret].
  rewrite shutdown_run. unfold add_event. cbn.
  now rewrite <- !app_assoc.
Qed.

Lemma sighup_requests_copyover_witness :
  exit_status
    (supervise (sample_env true no_settings claimed_listing [] None) only_in_loop
       (sample_args (Some "mud") None true) in_library).1 = 0.
Proof.
  destruct (sighup_requests_copyover
              (sample_env true no_settings claimed_listing [] None)
              (sample_args (Some "mud") None true)) as (_ & _ & H).
  rewrite (H in_library in_library eq_refl). reflexivity.
Defined.

(** C4 as stated fails twice.  The handler records nothing: it leaves the
    world as it is and raises.  And a second delivery is not absorbed: after
    one delivery in the loop, a delivery once the [try] statement has been
    left propagates out of [main], the shutdown hooks are not run and the exit
    status is 1 instead of 0. *)
Lemma second_sighup_is_not_absorbed :
  signal_HUP SIGHUP tt in_library = (Raise SystemCopyover, in_library)
  /\ exit_status
       (supervise (sample_env true no_settings claimed_listing [] None) only_in_loop
          (sample_args (Some "mud") None true) in_library).1 = 0
  /\ (supervise (sample_env true no_settings claimed_listing [] None)
        in_loop_and_after (sample_args (Some "mud") None true) in_library).1
     = Raise SystemCopyover
  /\ exit_status
       (supervise (sample_env true no_settings claimed_listing [] None)
          in_loop_and_after (sample_args (Some "mud") None true) in_library).1 = 1
  /\ count is_hooks_run
       (trace (supervise (sample_env true no_settings claimed_listing [] None)
                 in_loop_and_after (sample_args (Some "mud") None true)
                 in_library).2) = 0%nat.
Proof. vm_compute. repeat split. Qed.

(** * Further properties *)

(** ** Names of modules *)

Lemma length_append (s t : string) :
  String.length (s +:+ t) = (String.length s + String.length t)%nat.
Proof. induction s as [|c s IH]; simpl; [reflexivity|now rewrite IH]. Qed.

Lemma substring_append_l (s t : string) :
  String.substring 0 (String.length s) (s +:+ t) = s.
Proof.
  induction s as [|c s IH]; simpl.
  - destruct t; reflexivity.
  - now rewrite IH.
Qed.

Lemma substring_append_r (s t : string) :
  String.substring (String.length s) (String.length t) (s +:+ t) = t.
Proof.
  induction s as [|c s IH]; simpl; [apply substring_full|exact IH].
Qed.

Lemma endswith_append (s t : string) : endswith (s +:+ t) t = true.
Proof.
  unfold endswith. rewrite length_append.
  destruct (Nat.leb_spec (String.length t) (String.length s + String.length t));
    [|lia].
  replace (String.length s + String.length t - String.length t)%nat
    with (String.length s) by lia.
  rewrite substring_append_r. apply String.eqb_refl.
Qed.

(** X1.  Trimming undoes the appending of [.py]: the entry [s.py] is
    imported under the name [s], whatever [s] is.  So an entry [s] that is
    kept as it is (its name does not end in [.py]) and the entry [s.py] are
    two different entries imported under one and the same name. *)
Theorem trim_py_append (s : string) :
  trim_py (s +:+ ".py") = s
  /\ (endswith s ".py" = false ->
      trim_py s = trim_py (s +:+ ".py") /\ s <> s +:+ ".py").
Proof.
  assert (Ht : trim_py (s +:+ ".py") = s).
  { unfold trim_py. rewrite endswith_append. unfold drop_last3.
    rewrite length_append. simpl String.length.
    replace (String.length s + 3 - 3)%nat with (String.length s) by lia.
    apply substring_append_l. }
  split; [exact Ht|]. intros Hs. split.
  - rewrite Ht. unfold trim_py. now rewrite Hs.
  - intros Heq. apply (f_equal String.length) in Heq.
    rewrite length_append in Heq. simpl in Heq. lia.
Qed.

Lemma trim_py_append_witness :
  trim_py "mudlib" = trim_py ("mudlib" +:+ ".py").
Proof.
  destruct (trim_py_append "mudlib") as (_ & H).
  exact (proj1 (H eq_refl)).
Defined.

(** ** The order of the directory listing *)

Lemma ascii_compare_trans_le (a b c : ascii) :
  Ascii.compare a b <> Gt -> Ascii.compare b c <> Gt -> Ascii.compare a c <> Gt.
Proof.
  unfold Ascii.compare. rewrite !N.compare_gt_iff. lia.
Qed.

Lemma string_leb_trans (a b c : string) :
  String.leb a b = true -> String.leb b c = true -> String.leb a c = true.
Proof.
  unfold String.leb.
  assert (H : String.compare a b <> Gt -> String.compare b c <> Gt ->
              String.compare a c <> Gt).
  { revert b c. induction a as [|x a IH]; intros [|y b] [|z c]; simpl;
      try congruence.
    unfold Ascii.compare.
    destruct (N.compare_spec (N_of_ascii x) (N_of_ascii y)) as [Hxy|Hxy|Hxy];
      destruct (N.compare_spec (N_of_ascii y) (N_of_ascii z)) as [Hyz|Hyz|Hyz];
      destruct (N.compare_spec (N_of_ascii x) (N_of_ascii z)) as [Hxz|Hxz|Hxz];
      try congruence; try lia; try (intros; discriminate).
    apply IH. }
  destruct (String.compare a b), (String.compare b c), (String.compare a c);
    try reflexivity; try discriminate; intros; exfalso; apply H; congruence.
Qed.

Lemma sorted_cons_inv (x : string) (l : list string) :
  Sorted le_str (x :: l) -> Sorted le_str l /\ Forall (le_str x) l.
Proof.
  intros H. apply Sorted_StronglySorted in H.
  - inversion H; subst. split; [now apply StronglySorted_Sorted|assumption].
  - intros a b c. apply string_leb_trans.
Qed.

Lemma sorted_lists_equal (l1 l2 : list string) :
  Sorted le_str l1 -> Sorted le_str l2 -> Permutation l1 l2 -> l1 = l2.
Proof.
  revert l2. induction l1 as [|x l1 IH]; intros l2 H1 H2 Hp.
  - apply Permutation_nil in Hp. now subst.
  - destruct l2 as [|y l2].
    + symmetry in Hp. apply Permutation_nil in Hp. discriminate.
    + destruct (sorted_cons_inv _ _ H1) as (H1' & Hx).
      destruct (sorted_cons_inv _ _ H2) as (H2' & Hy).
      assert (Hxy : x = y).
      { assert (Hin1 : In x (y :: l2)) by (eapply Permutation_in; [exact Hp|now left]).
        assert (Hin2 : In y (x :: l1))
          by (eapply Permutation_in; [symmetry; exact Hp|now left]).
        destruct Hin1 as [->|Hin1]; [reflexivity|].
        destruct Hin2 as [->|Hin2]; [reflexivity|].
        apply String.leb_antisym.
        - rewrite List.Forall_forall in Hx. now apply Hx.
        - rewrite List.Forall_forall in Hy. now apply Hy. }
      subst y. f_equal. apply IH; auto.
      now apply Permutation_cons_inv in Hp.
Qed.

(** X2.  The order in which [os.listdir] returns the entries does not
    matter: two listings with the same entries are sorted into the same list,
    and the scan of the one does exactly what the scan of the other does. *)
Theorem listing_order_is_irrelevant (env : Env)
    (ls : string -> string -> list string) (path : string) (w : World) :
  Permutation (ls (cwd w) "pymodules") (listdir env (cwd w) "pymodules") ->
  sorted (ls (cwd w) "pymodules") = sorted (listdir env (cwd w) "pymodules")
  /\ scan_pymodules (with_listdir ls env) path w = scan_pymodules env path w.
Proof.
  intros Hp.
  assert (Hs : sorted (ls (cwd w) "pymodules")
               = sorted (listdir env (cwd w) "pymodules")).
  { apply sorted_lists_equal; try apply sorted_Sorted.
    rewrite <- (sorted_Permutation (ls (cwd w) "pymodules")).
    now rewrite <- (sorted_Permutation (listdir env (cwd w) "pymodules")). }
  split; [exact Hs|].
  unfold scan_pymodules, get_world. rewrite !run_gets.
  change (listdir (with_listdir ls env) (cwd w) "pymodules")
    with (ls (cwd w) "pymodules").
  rewrite Hs. reflexivity.
Qed.

Lemma listing_order_is_irrelevant_witness :
  scan_pymodules
    (with_listdir (fun _ _ => ["pkg2"; "a.py"; "b.py"])
       (sample_env true no_settings ["b.py"; "pkg2"; "a.py"] [] None))
    "/srv/lib/pymodules" in_library
  = scan_pymodules (sample_env true no_settings ["b.py"; "pkg2"; "a.py"] [] None)
      "/srv/lib/pymodules" in_library.
Proof.
  refine (proj2 (listing_order_is_irrelevant
                   (sample_env true no_settings ["b.py"; "pkg2"; "a.py"] [] None)
                   (fun _ _ => ["pkg2"; "a.py"; "b.py"])
                   "/srv/lib/pymodules" in_library _)).
  change (Permutation ["pkg2"; "a.py"; "b.py"] ["b.py"; "pkg2"; "a.py"]).
  apply Permutation_sym.
  apply (perm_trans (perm_skip "b.py" (perm_swap "a.py" "pkg2" [])))
    , (perm_trans (perm_swap "a.py" "b.py" ["pkg2"])).
  apply (perm_trans (perm_skip "a.py" (perm_swap "pkg2" "b.py" []))).
  apply (perm_trans (perm_swap "pkg2" "a.py" ["b.py"])). reflexivity.
Defined.

(** ** The module table *)

Lemma record_all_lookup (names : list string) (m : gmap string PyModule) (n : string) :
  record_all names m !! n
  = if bool_decide (n ∈ names) then Some (Module_ n) else m !! n.
Proof.
  induction names as [|x names IH] using rev_ind.
  - reflexivity.
  - rewrite record_all_snoc.
    destruct (decide (x = n)) as [->|Hne].
    + rewrite lookup_insert_eq, bool_decide_eq_true_2; [reflexivity|].
      apply elem_of_app. right. now apply list_elem_of_singleton.
    + rewrite lookup_insert_ne by exact Hne. rewrite IH.
      destruct (decide (n ∈ names)) as [Hin|Hout].
      * rewrite !bool_decide_eq_true_2; [reflexivity| |exact Hin].
        apply elem_of_app. now left.
      * rewrite !bool_decide_eq_false_2; [reflexivity| |exact Hout].
        intros [H|H]%elem_of_app; [contradiction|].
        apply list_elem_of_singleton in H. congruence.
Qed.

(** X3.  When the scan returns, [pymodules] maps every module name of the
    plan to its module and is what it was at every other name; the scan has
    changed neither the identity of the process nor its working directory. *)
Theorem scan_fills_pymodules (env : Env) (path : string) (w w' : World) :
  scan_pymodules env path w = (Ret tt, w') ->
  (forall n,
     pymodules w' !! n
     = if bool_decide
            (n ∈ plan env (cwd w) path (sorted (listdir env (cwd w) "pymodules")))
       then Some (Module_ n)
       else pymodules w !! n)
  /\ proc w' = proc w /\ cwd w' = cwd w.
Proof.
  unfold scan_pymodules, get_world. rewrite run_gets. intros H.
  destruct (load_entries_done _ _ _ _ _ H) as (Hp & Hc & _ & Hm).
  split; [|auto]. intros n. rewrite Hm. apply record_all_lookup.
Qed.

Lemma scan_fills_pymodules_witness :
  pymodules
    (scan_pymodules (sample_env true no_settings claimed_listing [] None)
       "/srv/lib/pymodules" in_library).2 !! "pkg2"
  = Some (Module_ "pkg2").
Proof.
  destruct (scan_fills_pymodules
              (sample_env true no_settings claimed_listing [] None)
              "/srv/lib/pymodules" in_library
              (scan_pymodules (sample_env true no_settings claimed_listing [] None)
                 "/srv/lib/pymodules" in_library).2
              ltac:(vm_compute; reflexivity)) as (H & _).
  rewrite (H "pkg2"). vm_compute. reflexivity.
Defined.

(** X4.  When [pymodules] is itself a package, the loader makes the one
    [import pymodules] and nothing else: the directory is not listed,
    [__import__] is never called, [sys.path] and the [pymodules] table are left
    alone.  If that import raises, the exception leaves the loader as it is:
    no message is logged for it and the log is not shut down. *)
Theorem package_is_imported_whole (env : Env) (w : World) :
  path_exists env (cwd w) "pymodules" = true ->
  path_exists env (cwd w) (os_path_join "pymodules" "__init__.py") = true ->
  load_library env w
  = (if import_ok env (pymodules w) "pymodules" then Ret tt
     else Raise (PyException "pymodules"),
     MkWorld (proc w) (cwd w) (pymodules w)
       (trace w ++ [EvLog INFO (Fmt "Loading the MUD library." []);
                    EvLog DEBUG (Fmt "Importing module: pymodules" []);
                    EvImportStmt "pymodules"])).
Proof.
  intros Hdir Hinit. unfold load_library, log, os_path_exists, import_stmt, get_world.
  rewrite run_emit, run_gets. cbn [add_event cwd]. rewrite Hdir. cbn [negb].
  rewrite run_gets. cbn [add_event cwd]. rewrite Hinit.
  rewrite !run_emit, run_gets. unfold add_event. cbn [pymodules proc cwd trace].
  destruct (import_ok env (pymodules w) "pymodules"); unfold ret, raise;
    now rewrite <- !app_assoc.
Qed.

Lemma package_is_imported_whole_witness :
  (load_library
     (with_listdir (fun _ _ => ["a.py"])
        (MkEnv "0.1" true true no_settings (fun n => n) (fun _ => None)
           (fun _ => None) (fun _ => None) (fun _ => None)
           (fun _ _ => None) (fun _ _ => None) os_path_join
           (fun _ _ => true) (fun _ _ => false) (fun _ _ => true)
           (fun _ _ => []) (fun _ _ => false) None))
     in_library).1
  = Raise (PyException "pymodules").
Proof.
  rewrite package_is_imported_whole; reflexivity.
Defined.

(** ** Entering the library *)



(** ** More on [assume_uid] *)

Lemma anti_root_ret (uid : PyVal) (w w' : World) :
  anti_root uid w = (Ret tt, w') ->
  proc w' = proc w /\ (p_uid (proc w) = 0 -> eq_zero uid = true).
Proof.
  unfold anti_root, os_getuid, log. rewrite run_gets.
  destruct (Z.eqb_spec (p_uid (proc w)) 0) as [Hz|Hnz].
  - destruct (eq_zero uid).
    + intros H. injection H as <-. auto.
    + rewrite !run_emit. discriminate.
  - intros H. injection H as <-. split; [reflexivity|]. intros; contradiction.
Qed.

Lemma gid_and_umask_keep_uid (env : Env) (gid : PyVal) (um : option Z) :
  keeps get_uid (gid_step env gid ;;; umask_step um).
Proof. unfold gid_step, set_gid, umask_step, os_umask. bound. Qed.

Lemma assume_uid_returns_checked (env : Env) (uid gid umask : PyVal) (w w' : World) :
  assume_uid env uid gid umask w = (Ret tt, w') ->
  p_uid (proc w') = 0 ->
  resolved_uid env (try_int (or_setting env uid "uid")) = Some 0.
Proof.
  intros Hrun Hroot.
  destruct (assume_uid_reaches_uid_step env uid gid umask w) as (um & w0 & _ & Heq).
  rewrite Heq in Hrun. unfold identity_steps in Hrun.
  apply bind_ret_inv in Hrun. destruct Hrun as (uid' & w1 & Huid & Hrest).
  apply bind_ret_inv in Hrest. destruct Hrest as ([] & w2 & Hguard & Hrest).
  pose proof (gid_and_umask_keep_uid env (try_int (or_setting env gid "gid")) um w2)
    as Hk.
  rewrite Hrest in Hk. unfold get_uid in Hk. cbn in Hk.
  destruct (anti_root_ret _ _ _ Hguard) as (Hp & Hz).
  rewrite <- Hp, <- Hk in Hz. specialize (Hz Hroot).
  rewrite (uid_step_ret _ _ _ _ _ Huid) in Hz.
  destruct (resolved_uid env _) as [n|]; simpl in Hz; [|discriminate].
  apply Z.eqb_eq in Hz. now subst.
Qed.

(** X6.  [assume_uid] never returns with [os.getuid()] equal to 0 unless
    the request resolved to uid 0: whoever runs after it returned runs as
    root only by explicit choice. *)
Theorem no_return_as_root (env : Env) (uid gid umask : PyVal) (w w' : World) :
  assume_uid env uid gid umask w = (Ret tt, w') ->
  p_uid (proc w') = 0 ->
  resolved_uid env (try_int (or_setting env uid "uid")) = Some 0.
Proof. apply assume_uid_returns_checked. Qed.

Lemma no_return_as_root_witness :
  resolved_uid (sample_env true no_settings [] [] None)
    (try_int (or_setting (sample_env true no_settings [] [] None) (PStr "root") "uid"))
  = Some 0.
Proof.
  exact (no_return_as_root (sample_env true no_settings [] [] None)
           (PStr "root") PNone PNone as_root
           (assume_uid (sample_env true no_settings [] [] None)
              (PStr "root") PNone PNone as_root).2
           ltac:(vm_compute; reflexivity) eq_refl).
Defined.






Lemma set_uid_granted (env : Env) (n u : Z) (w : World) :
  n <> p_uid (proc w) -> os_setuid env (proc w) n = Some u ->
  exists msg,
    set_uid env n w
    = (Ret tt,
       MkWorld (MkProc u (p_gid (proc w)) (p_umask (proc w))) (cwd w) (pymodules w)
         (trace w ++ [EvSetuid n; EvLog INFO msg])).
Proof.
  intros Hn Hok. unfold set_uid, os_getuid, get_world, log.
  rewrite run_gets. destruct (Z.eqb_spec (p_uid (proc w)) n) as [Heq|_];
    [congruence|].
  rewrite run_emit, run_gets. cbn [add_event proc]. rewrite Hok.
  destruct (getpwuid env n) as [name|]; eexists;
    unfold bind, modify, emit, add_event, set_proc; cbn;
    now rewrite <- app_assoc.
Qed.

Lemma set_gid_refused (env : Env) (g : Z) (w : World) :
  g <> p_gid (proc w) -> os_setgid env (proc w) g = None ->
  exists msg,
    set_gid env g w
    = (Raise (SystemExit 1),
       MkWorld (proc w) (cwd w) (pymodules w)
         (trace w ++ [EvSetgid g; EvLog CRITICAL msg; EvLogShutdown])).
Proof.
  intros Hn Hdenied. unfold set_gid, os_getgid, get_world, log, log_shutdown, sys_exit.
  rewrite run_gets. destruct (Z.eqb_spec (p_gid (proc w)) g) as [Heq|_];
    [congruence|].
  rewrite run_emit, run_gets. cbn [add_event proc]. rewrite Hdenied.
  destruct (getgrgid env g) as [name|]; eexists;
    unfold bind, emit, raise, add_event; cbn;
    now rewrite <- !app_assoc.
Qed.

Lemma anti_root_passes (uid : PyVal) (w : World) :
  p_uid (proc w) <> 0 -> anti_root uid w = (Ret tt, w).
Proof.
  intros Hnz. unfold anti_root, os_getuid. rewrite run_gets.
  destruct (Z.eqb_spec (p_uid (proc w)) 0); [contradiction|reflexivity].
Qed.

Lemma gid_step_resolved (env : Env) (v : PyVal) (g : Z) (w : World) :
  resolved_gid env v = Some g -> gid_step env v w = set_gid env g w.
Proof.
  destruct v as [|n|name]; simpl; intros H.
  - discriminate.
  - now injection H as ->.
  - now rewrite H.
Qed.

(** X8.  The uid is changed before the gid.  On a kernel that lets only
    uid 0 change the gid, a request to change both to a user other than root
    therefore cannot succeed: once [os.setuid] has made the process a non-root
    user, [os.setgid] is refused and [assume_uid] ends with [SystemExit(1)],
    the uid changed and the gid as it was. *)
Theorem uid_change_blocks_gid_change (env : Env) (uid gid umask : PyVal) (w : World)
    (n u g : Z) :
  resolved_uid env (try_int (or_setting env uid "uid")) = Some n ->
  n <> p_uid (proc w) ->
  os_setuid env (proc w) n = Some u ->
  u <> 0 ->
  resolved_gid env (try_int (or_setting env gid "gid")) = Some g ->
  g <> p_gid (proc w) ->
  (forall p, p_uid p <> 0 -> os_setgid env p g = None) ->
  (assume_uid env uid gid umask w).1 = Raise (SystemExit 1)
  /\ proc (assume_uid env uid gid umask w).2
     = MkProc u (p_gid (proc w)) (p_umask (proc w))
  /\ exists t msg,
       trace (assume_uid env uid gid umask w).2
       = t ++ [EvSetgid g; EvLog CRITICAL msg; EvLogShutdown]
       /\ In (EvSetuid n) t.
Proof.
  intros Hru Hn Hset Hu Hrg Hg Hkernel.
  destruct (assume_uid_reaches_uid_step env uid gid umask w) as (um & w0 & Hp & ->).
  rewrite <- Hp in *. clear Hp w.
  destruct (set_uid_granted env n u w0 Hn Hset) as (msg & Hgranted).
  set (w1 := MkWorld (MkProc u (p_gid (proc w0)) (p_umask (proc w0))) (cwd w0)
               (pymodules w0) (trace w0 ++ [EvSetuid n; EvLog INFO msg])) in *.
  assert (Hstep : uid_step env (try_int (or_setting env uid "uid")) w0
                  = (Ret (PInt n), w1)).
  { destruct (try_int (or_setting env uid "uid")) as [|m|name]; simpl in *.
    - discriminate.
    - injection Hru as ->. now rewrite (bind_ret_l _ _ _ _ _ Hgranted).
    - rewrite Hru. now rewrite (bind_ret_l _ _ _ _ _ Hgranted). }
  destruct (set_gid_refused env g w1 Hg (Hkernel (proc w1) Hu)) as (msg' & Hrefused).
  assert (Hrun : identity_steps env uid gid um w0
                 = (Raise (SystemExit 1),
                    MkWorld (proc w1) (cwd w1) (pymodules w1)
                      (trace w1 ++ [EvSetgid g; EvLog CRITICAL msg'; EvLogShutdown]))).
  { unfold identity_steps. rewrite (bind_ret_l _ _ _ _ _ Hstep).
    rewrite (bind_ret_l _ _ _ _ _ (anti_root_passes (PInt n) w1 Hu)).
    apply bind_raise_l. now rewrite (gid_step_resolved _ _ _ _ Hrg). }
  rewrite Hrun. cbn. repeat split.
  exists (trace w0 ++ [EvSetuid n; EvLog INFO msg]), msg'. split; [reflexivity|].
  apply in_or_app. right. now left.
Qed.

Lemma uid_change_blocks_gid_change_witness :
  (assume_uid (sample_env true no_settings [] [] None)
     (PStr "mud") (PStr "mud") PNone as_root).1 = Raise (SystemExit 1).
Proof.
  refine (proj1 (uid_change_blocks_gid_change
                   (sample_env true no_settings [] [] None)
                   (PStr "mud") (PStr "mud") PNone as_root 1000 1000 1000
                   eq_refl _ eq_refl _ eq_refl _ _)); try (cbn; lia).
  intros p Hp. cbn. destruct (Z.eqb_spec (p_uid p) 0); [contradiction|reflexivity].
Defined.

Lemma set_gid_same (env : Env) (g : Z) (w : World) :
  p_gid (proc w) = g -> set_gid env g w = (Ret tt, w).
Proof.
  intros H. unfold set_gid, os_getgid. rewrite run_gets, H, Z.eqb_refl.
  reflexivity.
Qed.

(** X9.  A request that asks for nothing new costs nothing: when the
    process is not root, the uid and the gid are absent or resolve to the ones
    the process has, and no umask is given, [assume_uid] makes no system call
    and logs nothing. *)
Theorem nothing_to_change (env : Env) (uid gid umask : PyVal) (w : World) :
  p_uid (proc w) <> 0 ->
  or_setting env uid "uid" = PNone
  \/ resolved_uid env (try_int (or_setting env uid "uid")) = Some (p_uid (proc w)) ->
  or_setting env gid "gid" = PNone
  \/ resolved_gid env (try_int (or_setting env gid "gid")) = Some (p_gid (proc w)) ->
  or_setting env umask "umask" = PNone ->
  assume_uid env uid gid umask w
  = (Ret tt, add_event (EvAssumeUid uid gid umask) w).
Proof.
  intros Hnz Hu Hg Hm. rewrite assume_uid_run, Hm. cbn [py_int truthy].
  set (w1 := add_event (EvAssumeUid uid gid umask) w).
  unfold identity_steps.
  assert (Huid : exists uid',
            uid_step env (try_int (or_setting env uid "uid")) w1 = (Ret uid', w1)).
  { destruct Hu as [->|Hu]; [now exists PNone|].
    eexists. apply uid_step_same; [exact Hu|reflexivity]. }
  destruct Huid as (uid' & Huid). rewrite (bind_ret_l _ _ _ _ _ Huid).
  rewrite (bind_ret_l _ _ _ _ _ (anti_root_passes uid' w1 Hnz)).
  assert (Hgid : gid_step env (try_int (or_setting env gid "gid")) w1 = (Ret tt, w1)).
  { destruct Hg as [->|Hg]; [reflexivity|].
    rewrite (gid_step_resolved _ _ _ _ Hg). apply set_gid_same. reflexivity. }
  now rewrite (bind_ret_l _ _ _ _ _ Hgid).
Qed.

Lemma nothing_to_change_witness :
  assume_uid (sample_env true no_settings [] [] None)
    (PStr "1000") (PStr "mud") PNone as_mud
  = (Ret tt, add_event (EvAssumeUid (PStr "1000") (PStr "mud") PNone) as_mud).
Proof.
  apply nothing_to_change; [cbn; lia|right; reflexivity|right; reflexivity|reflexivity].
Defined.

(** X10.  What is given on the command line hides the configuration: with
    the three values present, no configured value has any influence on what
    [assume_uid] does. *)
Theorem arguments_hide_settings (env : Env) (settings : string -> PyVal)
    (uid gid umask : PyVal) (w : World) :
  is_None uid = false -> is_None gid = false -> is_None umask = false ->
  assume_uid (with_settings settings env) uid gid umask w
  = assume_uid env uid gid umask w.
Proof.
  intros Hu Hg Hm. unfold assume_uid, resolve_umask, or_setting.
  rewrite Hu, Hg, Hm. reflexivity.
Qed.

Lemma arguments_hide_settings_witness :
  assume_uid
    (with_settings (fun _ => PStr "root") (sample_env true no_settings [] [] None))
    (PStr "mud") (PStr "mud") (PStr "18") as_mud
  = assume_uid (sample_env true no_settings [] [] None)
      (PStr "mud") (PStr "mud") (PStr "18") as_mud.
Proof. apply arguments_hide_settings; reflexivity. Defined.

(** ** The order of the sections of [main] *)

Ltac stage_leaf :=
  first [ left; reflexivity | right; reflexivity ].

Lemma assume_uid_in_stage (env : Env) (early : bool) (uid gid umask : PyVal) :
  in_stage early (if early then 4 else 9) (assume_uid env uid gid umask).
Proof.
  unfold in_stage, assume_uid, resolve_umask, uid_step, set_uid, anti_root,
    gid_step, set_gid, umask_step, os_umask.
  destruct early; bound; stage_leaf.
Qed.

Lemma early_identity_in_stage (env : Env) (args : Args) :
  in_stage (a_early args) 4 (early_identity env args).
Proof.
  unfold early_identity. destruct (a_early args); rewrite ?andb_false_r.
  - apply emits_when. apply (assume_uid_in_stage env true).
  - apply emits_ret.
Qed.

Lemma late_identity_in_stage (env : Env) (args : Args) :
  in_stage (a_early args) 9 (late_identity env args).
Proof.
  unfold late_identity. destruct (a_early args); cbn [negb]; rewrite ?andb_false_r.
  - apply emits_ret.
  - apply emits_when. apply (assume_uid_in_stage env false).
Qed.

Lemma load_library_in_stage (env : Env) (early : bool) :
  in_stage early 6 (load_library env).
Proof.
  unfold in_stage, load_library, import_stmt, scan_pymodules, load_entry,
    import_module, os_path_exists, os_path_abspath.
  bound; stage_leaf.
Qed.

Lemma plain_phases_in_stage (env : Env) (args : Args) (early : bool) :
  in_stage early 0 (logging env args)
  /\ in_stage early 1 (enter_library env args)
  /\ in_stage early 2 load_configuration
  /\ in_stage early 3 (network_initialization args)
  /\ in_stage early 5 (nakedmud_compatibility env)
  /\ in_stage early 7 copyover_recovery
  /\ in_stage early 8 (register_signals env)
  /\ in_stage early 10 enter_loop.
Proof.
  unfold in_stage, logging, enter_library, load_configuration,
    network_initialization, nakedmud_compatibility, inject, copyover_recovery,
    register_signals, enter_loop.
  repeat split; bound; stage_leaf.
Qed.

Lemma run_loop_in_stage (env : Env) (early : bool) :
  in_stage early 11 (run_loop (engine_start env)).
Proof.
  intros w. rewrite run_loop_engine.
  destruct (engine_outcome env) as [[c| | |what]|]; cbn;
    eexists; (split; [rewrite <- ?app_assoc; reflexivity|]);
    repeat constructor; stage_leaf.
Qed.

Lemma shutdown_in_stage (early : bool) (begin_copyover : bool) :
  in_stage early 12 (shutdown begin_copyover).
Proof.
  unfold in_stage, shutdown. bound; stage_leaf.
Qed.

Lemma at_stage_in_range (early : bool) (i lo hi : nat) (e : Event) :
  (lo <= i <= hi)%nat -> at_stage early i e -> in_range early lo hi e.
Proof.
  intros Hi [H|H] s Hs; rewrite H in Hs; [discriminate|].
  injection Hs as <-. exact Hi.
Qed.

Lemma in_stage_in_range {A} (early : bool) (i lo hi : nat) (m : M A) :
  (lo <= i <= hi)%nat -> in_stage early i m -> emits (in_range early lo hi) m.
Proof.
  intros Hi. apply emits_weaken. intros e. now apply at_stage_in_range.
Qed.

Lemma emits_sequence (P : Event -> Prop) (l : list (M unit)) :
  Forall (emits P) l -> emits P (sequence l).
Proof.
  unfold sequence. induction 1 as [|m l Hm _ IH]; simpl.
  - apply emits_ret.
  - apply emits_bind; [exact Hm|intros _; exact IH].
Qed.

(** The phases [lo], ..., [hi - 1] append events of their own sections. *)
Lemma phases_in_range (env : Env) (args : Args) (lo hi : nat) :
  emits (in_range (a_early args) lo (hi - 1))
    (sequence (drop lo (take hi (phases env args)))).
Proof.
  destruct (plain_phases_in_stage env args (a_early args))
    as (H0 & H1 & H2 & H3 & H5 & H7 & H8 & H10).
  pose proof (early_identity_in_stage env args) as H4.
  pose proof (load_library_in_stage env (a_early args)) as H6.
  pose proof (late_identity_in_stage env args) as H9.
  assert (Hall : forall i m, phases env args !! i = Some m ->
            in_stage (a_early args) i m).
  { intros i m. unfold phases, startup_phases. cbn [app].
    do 11 (destruct i as [|i]; [intros H; injection H as <-; assumption|]).
    discriminate. }
  apply emits_sequence. apply Forall_lookup_2. intros i m Hm.
  rewrite lookup_drop in Hm.
  destruct (decide (lo + i < hi)%nat) as [Hlt|Hge].
  - rewrite lookup_take_lt in Hm by exact Hlt.
    apply (in_stage_in_range _ (lo + i)); [lia|]. now apply Hall.
  - rewrite lookup_take_ge in Hm by lia. discriminate.
Qed.

Lemma loop_and_cleanup_in_range (env : Env) (early : bool) :
  emits (in_range early 11 12) (loop_and_cleanup env).
Proof.
  unfold loop_and_cleanup. apply emits_bind.
  - apply (in_stage_in_range _ 11); [lia|apply run_loop_in_stage].
  - intros bc. apply (in_stage_in_range _ 12); [lia|apply shutdown_in_stage].
Qed.

(** [main] cut after its first [k] phases. *)
Lemma main_cut (env : Env) (args : Args) (k : nat) (w : World) :
  main env args w
  = (sequence (take k (phases env args)) ;;;
     sequence (drop k (phases env args)) ;;;
     loop_and_cleanup env) w.
Proof.
  unfold main. fold (loop_and_cleanup env).
  rewrite <- (take_drop k (phases env args)) at 1.
  unfold sequence.
  rewrite (bind_congr_l _ _ _ _ (for_each_app _ _ _ _)).
  now rewrite bind_assoc.
Qed.

Lemma rest_in_range (env : Env) (args : Args) (k : nat) :
  (k <= 11)%nat ->
  emits (in_range (a_early args) k 12)
    (sequence (drop k (phases env args)) ;;; loop_and_cleanup env).
Proof.
  intros Hk. apply emits_bind.
  - pose proof (phases_in_range env args k 11) as H.
    replace (take 11 (phases env args)) with (phases env args) in H by reflexivity.
    revert H. apply emits_weaken. intros e He s Hs. specialize (He s Hs). lia.
  - intros _. generalize (loop_and_cleanup_in_range env (a_early args)).
    apply emits_weaken. intros e He s Hs. specialize (He s Hs). lia.
Qed.

Lemma first_in_range (env : Env) (args : Args) (k : nat) :
  emits (in_range (a_early args) 0 (k - 1)) (sequence (take k (phases env args))).
Proof.
  pose proof (phases_in_range env args 0 k) as H. now rewrite drop_0 in H.
Qed.











(** ** What has happened when a call is made *)

(** A run that makes the call [e], of a kind that its first part [m] never
    makes, has come out of [m] normally, and [e] belongs to what follows. *)
Lemma cut_run (m k : M unit) (q : Event -> bool) (w : World)
    (t1 t2 : list Event) (e : Event) :
  emits (fun e => q e = false) m -> emits (fun _ => True) k ->
  trace (bind m (fun _ => k) w).2 = trace w ++ t1 ++ e :: t2 ->
  q e = true ->
  exists w1 tm post,
    m w = (Ret tt, w1) /\ trace w1 = trace w ++ tm /\ t1 = tm ++ post
    /\ trace (k w1).2 = trace w1 ++ post ++ e :: t2.
Proof.
  intros Hm Hk Ht Hq. destruct (Hm w) as (tm & Htm & Hall).
  rewrite List.Forall_forall in Hall.
  unfold bind in Ht. destruct (m w) as [[[]|x] w1]; cbn in Htm, Ht.
  - destruct (Hk w1) as (tk & Htk & _).
    rewrite Htk, Htm, <- app_assoc in Ht. apply app_inv_head in Ht.
    apply app_eq_app in Ht. destruct Ht as (l & [[Hl1 Hl2]|[Hl1 Hl2]]).
    + destruct l as [|y l]; cbn in Hl2.
      * exists w1, tm, []. rewrite app_nil_r in Hl1. subst.
        rewrite app_nil_r. auto.
      * injection Hl2 as <- _. exfalso.
        assert (Hin : In e tm) by (rewrite Hl1; apply in_or_app; right; now left).
        specialize (Hall e Hin). congruence.
    + exists w1, tm, l. subst. auto.
  - rewrite Htm in Ht. apply app_inv_head in Ht. exfalso.
    assert (Hin : In e tm) by (rewrite Ht; apply in_or_app; right; now left).
    specialize (Hall e Hin). congruence.
Qed.

Lemma library_import_stage (early : bool) (e : Event) :
  is_library_import e = true -> stage early e = Some 6%nat.
Proof.
  destruct e; cbn; try discriminate; [|reflexivity]. now intros ->.
Qed.

Lemma assume_uid_stage (early : bool) (e : Event) :
  is_assume_uid e = true -> stage early e = Some (if early then 4 else 9)%nat.
Proof. destruct e; cbn; try discriminate. reflexivity. Qed.

Lemma inject_stage (early : bool) (e : Event) :
  is_inject e = true -> stage early e = Some 5%nat.
Proof. destruct e; cbn; try discriminate. reflexivity. Qed.

(** A call of section [s] made in a run of [main] finds the first [k <= s]
    phases returned. *)
Lemma main_cut_at (env : Env) (args : Args) (k s : nat) (w : World)
    (t1 t2 : list Event) (e : Event) :
  (k <= s)%nat -> (k <= 11)%nat ->
  stage (a_early args) e = Some s ->
  trace (main env args w).2 = trace w ++ t1 ++ e :: t2 ->
  exists w1 tm post,
    sequence (take k (phases env args)) w = (Ret tt, w1)
    /\ trace w1 = trace w ++ tm /\ t1 = tm ++ post
    /\ Forall (in_range (a_early args) 0 (k - 1)) tm
    /\ Forall (in_range (a_early args) k 12) (post ++ e :: t2).
Proof.
  intros Hks Hk Hs Ht. rewrite (main_cut env args k) in Ht.
  pose proof (first_in_range env args k) as Hfirst.
  pose proof (rest_in_range env args k Hk) as Hrest.
  destruct (decide (k = 0)%nat) as [->|Hk0].
  - exists w, [], t1. cbn. rewrite app_nil_r. repeat split; auto.
    destruct (Hrest w) as (tk & Htk & Hall).
    change (bind (sequence (take 0 (phases env args))) ?f w) with (f tt w) in Ht.
    cbv beta in Ht. rewrite Htk in Ht. apply app_inv_head in Ht. now subst.
  - destruct (cut_run (sequence (take k (phases env args)))
                (sequence (drop k (phases env args)) ;;; loop_and_cleanup env)
                (fun x => match stage (a_early args) x with
                          | Some s' => (k <=? s')%nat
                          | None => false
                          end) w t1 t2 e) as (w1 & tm & post & H1 & H2 & H3 & H4).
    + revert Hfirst. apply emits_weaken. intros x Hx.
      destruct (stage (a_early args) x) as [s'|] eqn:Hs'; [|reflexivity].
      specialize (Hx s' Hs'). apply Nat.leb_gt. lia.
    + revert Hrest. now apply emits_weaken.
    + exact Ht.
    + rewrite Hs. now apply Nat.leb_le.
    + exists w1, tm, post. repeat split; auto.
      * destruct (Hfirst w) as (tm' & Htm' & Hall). rewrite H1 in Htm'. cbn in Htm'.
        rewrite H2 in Htm'. apply app_inv_head in Htm'. now subst.
      * destruct (Hrest w1) as (tk & Htk & Hall). rewrite H4 in Htk.
        apply app_inv_head in Htk. now subst.
Qed.

Lemma injects_of_app (t1 t2 : list Event) :
  injects_of (t1 ++ t2) = injects_of t1 ++ injects_of t2.
Proof.
  induction t1 as [|e t1 IH]; simpl; [reflexivity|].
  destruct e; simpl; rewrite IH; reflexivity.
Qed.

Lemma injects_of_none (early : bool) (lo hi : nat) (t : list Event) :
  (hi < 5 \/ 5 < lo)%nat -> Forall (in_range early lo hi) t -> injects_of t = [].
Proof.
  intros Hr. induction 1 as [|e t He _ IH]; [reflexivity|].
  destruct e; cbn; try exact IH.
  specialize (He 5%nat eq_refl). lia.
Qed.

Lemma count_none_in_range (early : bool) (lo hi s : nat) (q : Event -> bool)
    (t : list Event) :
  (forall e, q e = true -> stage early e = Some s) ->
  (hi < s \/ s < lo)%nat -> Forall (in_range early lo hi) t -> count q t = 0%nat.
Proof.
  intros Hq Hr Hall. apply count_none.
  eapply Forall_impl; [exact Hall|]. intros e He.
  destruct (q e) eqn:Hqe; [|reflexivity].
  specialize (He s (Hq e Hqe)). lia.
Qed.

Lemma extend_nil (w : World) : extend [] w = w.
Proof. destruct w. unfold extend. cbn. now rewrite app_nil_r. Qed.

Lemma extend_app (a b : list Event) (w : World) :
  extend b (extend a w) = extend (a ++ b) w.
Proof. unfold extend. cbn. now rewrite app_assoc. Qed.

Lemma for_each_extend {A} (f : A -> M unit) (g : A -> list Event) (l : list A)
    (w : World) :
  (forall x w, f x w = (Ret tt, extend (g x) w)) ->
  for_each f l w = (Ret tt, extend (List.concat (List.map g l)) w).
Proof.
  intros Hf. revert w. induction l as [|x l IH]; intros w; cbn.
  - now rewrite extend_nil.
  - rewrite (bind_ret_l _ _ _ _ _ (Hf x w)), IH. now rewrite extend_app.
Qed.

Lemma inject_run (env : Env) (name : string) (w : World) :
  inject env name w
  = (Ret tt,
     extend [EvLog DEBUG (Fmt "Injecting %r into sys.modules as %r."
                            [PStr (attr_name env name); PStr name]);
             EvInject name] w).
Proof.
  unfold inject, log, bind, emit, extend, add_event.
  cbn [proc cwd pymodules trace]. now rewrite <- app_assoc.
Qed.

Lemma nakedmud_compatibility_run (env : Env) (w : World) :
  exists evs,
    nakedmud_compatibility env w
    = (Ret tt, MkWorld (proc w) (cwd w) (pymodules w) (trace w ++ evs))
    /\ injects_of evs = injected_modules.
Proof.
  unfold nakedmud_compatibility, log.
  assert (Hfirst : exists pre,
            when (truthy (settings_get env "nakedmud_compatible"))
              (emit (EvLog INFO (Fmt "Loading NakedMud Compatibility Layer." [])) ;;;
               emit (EvImportStmt "nakedsun.nmcompat")) w
            = (Ret tt, extend pre w) /\ injects_of pre = []).
  { destruct (truthy (settings_get env "nakedmud_compatible")); cbn [when].
    - eexists [_; _]. unfold bind, emit, extend, add_event.
      cbn [proc cwd pymodules trace]. rewrite <- app_assoc. split; reflexivity.
    - exists []. now rewrite extend_nil. }
  destruct Hfirst as (pre & Hpre & Hinj).
  rewrite (bind_ret_l _ _ _ _ _ Hpre), run_emit.
  rewrite (for_each_extend _ _ _ _ (inject_run env)).
  eexists (pre ++ [_] ++ _). split.
  - unfold extend, add_event. cbn [proc cwd pymodules trace].
    rewrite <- !app_assoc. reflexivity.
  - rewrite !injects_of_app, Hinj. reflexivity.
Qed.

(** X12.  Whenever code of the MUD library is imported, the twelve
    modules of NakedSun have been injected into [sys.modules], in the order of
    the source, and nothing is injected afterwards. *)
Theorem injection_precedes_library (env : Env) (args : Args) (w : World)
    (t1 t2 : list Event) (e : Event) :
  trace (main env args w).2 = trace w ++ t1 ++ e :: t2 ->
  is_library_import e = true ->
  injects_of t1 = injected_modules /\ injects_of t2 = [].
Proof.
  intros Ht He.
  destruct (main_cut_at env args 6 6 w t1 t2 e ltac:(lia) ltac:(lia)
              (library_import_stage _ _ He) Ht)
    as (w1 & tm & post & Hrun & Htm & -> & _ & Hrest).
  apply Forall_app in Hrest. destruct Hrest as (Hpost & Hrest).
  apply Forall_cons in Hrest. destruct Hrest as (_ & Ht2).
  rewrite injects_of_app, (injects_of_none _ _ _ post (or_intror (Nat.lt_succ_diag_r 5)) Hpost).
  rewrite (injects_of_none _ _ _ t2 (or_intror (Nat.lt_succ_diag_r 5)) Ht2).
  split; [|reflexivity]. rewrite app_nil_r.
  change (take 6 (phases env args))
    with (take 5 (phases env args) ++ [nakedmud_compatibility env]) in Hrun.
  unfold sequence in Hrun. rewrite for_each_app in Hrun.
  apply bind_ret_inv in Hrun. destruct Hrun as ([] & wa & Ha & Hc).
  destruct (first_in_range env args 5 w) as (ta & Hta & Hall).
  unfold sequence in Hta. rewrite Ha in Hta. cbn in Hta.
  cbn [for_each] in Hc. rewrite bind_ret_tt_r in Hc.
  destruct (nakedmud_compatibility_run env wa) as (tc & Hcrun & Hinj).
  rewrite Hcrun in Hc. injection Hc as <-. cbn in Htm.
  rewrite Hta, <- app_assoc in Htm. apply app_inv_head in Htm. subst tm.
  rewrite injects_of_app, Hinj.
  now rewrite (injects_of_none _ _ _ ta (or_introl (Nat.lt_succ_diag_r 4)) Hall).
Qed.

Lemma injection_precedes_library_witness :
  injects_of
    (List.firstn 38
       (trace (main (sample_env true no_settings claimed_listing [] None)
                 (sample_args (Some "mud") None false) as_root).2))
  = injected_modules.
Proof.
  exact (proj1 (injection_precedes_library
                  (sample_env true no_settings claimed_listing [] None)
                  (sample_args (Some "mud") None false) as_root
                  (List.firstn 38
                     (trace (main (sample_env true no_settings claimed_listing [] None)
                               (sample_args (Some "mud") None false) as_root).2))
                  (List.skipn 39
                     (trace (main (sample_env true no_settings claimed_listing [] None)
                               (sample_args (Some "mud") None false) as_root).2))
                  (EvImport "a")
                  ltac:(vm_compute; reflexivity) eq_refl)).
Defined.

(** X13.  With [--early], where [os.getuid] exists, whenever code of the
    MUD library is imported [assume_uid] has been entered, once, and has
    returned: the library runs under the new identity. *)
Theorem early_identity_precedes_library (env : Env) (args : Args) (w : World)
    (t1 t2 : list Event) (e : Event) :
  do_uid env = true -> a_early args = true ->
  trace (main env args w).2 = trace w ++ t1 ++ e :: t2 ->
  is_library_import e = true ->
  count is_assume_uid t1 = 1%nat /\ count is_assume_uid t2 = 0%nat.
Proof.
  intros Hdo Hearly Ht He.
  destruct (main_cut_at env args 5 6 w t1 t2 e ltac:(lia) ltac:(lia)
              (library_import_stage _ _ He) Ht)
    as (w1 & tm & post & Hrun & Htm & -> & _ & Hrest).
  apply Forall_app in Hrest. destruct Hrest as (Hpost & Hrest).
  apply Forall_cons in Hrest. destruct Hrest as (_ & Ht2).
  rewrite Hearly in *.
  assert (Hq : forall x, is_assume_uid x = true -> stage true x = Some 4%nat)
    by apply (assume_uid_stage true).
  rewrite count_app.
  rewrite (count_none_in_range true 5 12 4 is_assume_uid post Hq ltac:(lia) Hpost).
  rewrite (count_none_in_range true 5 12 4 is_assume_uid t2 Hq ltac:(lia) Ht2).
  split; [|reflexivity]. rewrite Nat.add_0_r.
  change (take 5 (phases env args))
    with (take 4 (phases env args) ++ [early_identity env args]) in Hrun.
  unfold sequence in Hrun. rewrite for_each_app in Hrun.
  apply bind_ret_inv in Hrun. destruct Hrun as ([] & wa & Ha & Hc).
  destruct (first_in_range env args 4 w) as (ta & Hta & Hall).
  unfold sequence in Hta. rewrite Ha in Hta. cbn in Hta. rewrite Hearly in Hall.
  cbn [for_each] in Hc. rewrite bind_ret_tt_r in Hc.
  unfold early_identity in Hc. rewrite Hdo, Hearly in Hc. cbn [andb when] in Hc.
  pose proof (assume_uid_adds_marker env _ _ _ _ _ _ Hc) as Hone.
  rewrite Htm, Hta, !count_app in Hone.
  rewrite (count_none_in_range true 0 (4 - 1) 4 is_assume_uid ta Hq ltac:(lia) Hall)
    in Hone.
  lia.
Qed.

Lemma early_identity_precedes_library_witness :
  count is_assume_uid
    (List.firstn 41
       (trace (main (sample_env true no_settings claimed_listing [] None)
                 (sample_args (Some "mud") None true) as_root).2)) = 1%nat.
Proof.
  exact (proj1 (early_identity_precedes_library
                  (sample_env true no_settings claimed_listing [] None)
                  (sample_args (Some "mud") None true) as_root
                  (List.firstn 41
                     (trace (main (sample_env true no_settings claimed_listing [] None)
                               (sample_args (Some "mud") None true) as_root).2))
                  (List.skipn 42
                     (trace (main (sample_env true no_settings claimed_listing [] None)
                               (sample_args (Some "mud") None true) as_root).2))
                  (EvImport "a")
                  eq_refl eq_refl ltac:(vm_compute; reflexivity) eq_refl)).
Defined.

(** ** The log is shut down before every exit *)

















(** ** How [main] ends *)



(** X16.  An exception of the engine that the [try] statement does not
    handle leaves [main] right after the engine call: the shutdown hooks are
    not run, "Exiting normally." is not logged, the log is not shut down, and
    the exit status is 1. *)
Theorem engine_failure_skips_cleanup (env : Env) (args : Args) (w w1 : World)
    (what : string) :
  sequence (phases env args) w = (Ret tt, w1) ->
  engine_outcome env = Some (PyException what) ->
  main env args w = (Raise (PyException what), add_event EvEngineStart w1)
  /\ exit_status (main env args w).1 = 1
  /\ count is_hooks_run (trace (main env args w).2) = count is_hooks_run (trace w).
Proof.
  intros Hseq Hout.
  assert (Hrun : main env args w
                 = (Raise (PyException what), add_event EvEngineStart w1)).
  { rewrite (main_reaches_loop _ _ _ _ Hseq). apply bind_raise_l.
    now rewrite run_loop_engine, Hout. }
  rewrite Hrun. split; [reflexivity|]. split; [reflexivity|].
  pose proof (phases_add_no_hook env args w tt w1 Hseq) as Hc.
  unfold add_event. cbn [snd trace]. rewrite count_app, Hc. cbn. lia.
Qed.

Lemma engine_failure_skips_cleanup_witness :
  exit_status
    (main (sample_env true no_settings claimed_listing [] (Some (PyException "boom")))
       (sample_args None None false) as_mud).1 = 1.
Proof.
  destruct (engine_failure_skips_cleanup
              (sample_env true no_settings claimed_listing []
                 (Some (PyException "boom")))
              (sample_args None None false) as_mud
              (sequence (phases (sample_env true no_settings claimed_listing []
                                   (Some (PyException "boom")))
                           (sample_args None None false)) as_mud).2
              "boom" ltac:(vm_compute; reflexivity) eq_refl) as (_ & H & _).
  exact H.
Defined.

(** X17.  The exit code of a [SystemExit] raised inside the engine is lost:
    whatever it is, [main] does exactly what it does when the engine
    returns, and exits with status 0. *)
Theorem engine_exit_code_is_dropped (env : Env) (args : Args) (w : World) (c : Z) :
  main (with_outcome (Some (SystemExit c)) env) args w
  = main (with_outcome None env) args w.
Proof.
  unfold main.
  change (sequence (phases (with_outcome (Some (SystemExit c)) env) args))
    with (sequence (phases (with_outcome None env) args)).
  apply bind_ext. intros _ w1. unfold bind. now rewrite !run_loop_engine.
Qed.

(** ** The identity when the loop starts *)

Lemma plain_phases_keep_uid (env : Env) (args : Args) :
  keeps get_uid (logging env args)
  /\ keeps get_uid (enter_library env args)
  /\ keeps get_uid load_configuration
  /\ keeps get_uid (network_initialization args)
  /\ keeps get_uid (nakedmud_compatibility env)
  /\ keeps get_uid (load_library env)
  /\ keeps get_uid copyover_recovery
  /\ keeps get_uid (register_signals env)
  /\ keeps get_uid enter_loop.
Proof.
  unfold logging, enter_library, load_configuration, network_initialization,
    nakedmud_compatibility, inject, load_library, import_stmt, scan_pymodules,
    load_entry, import_module, os_path_exists, os_path_abspath,
    copyover_recovery, register_signals, enter_loop.
  repeat split; bound.
Qed.

Lemma keeps_ret_world {B} (f : World -> B) (m : M unit) (w w' : World) :
  keeps f m -> m w = (Ret tt, w') -> f w' = f w.
Proof. intros Hk Hm. specialize (Hk w). now rewrite Hm in Hk. Qed.

(** X18.  Where [os.getuid] exists, the event loop is never reached with
    [os.getuid()] equal to 0 unless the uid asked for, on the command line or
    in the configuration, resolves to 0. *)
Theorem loop_not_reached_as_root (env : Env) (args : Args) (w w1 : World) :
  do_uid env = true ->
  sequence (phases env args) w = (Ret tt, w1) ->
  p_uid (proc w1) = 0 ->
  resolved_uid env (try_int (or_setting env (of_arg (a_uid args)) "uid")) = Some 0.
Proof.
  intros Hdo Hseq Hroot.
  destruct (plain_phases_keep_uid env args)
    as (K0 & K1 & K2 & K3 & K5 & K6 & K7 & K8 & K10).
  unfold sequence, phases, startup_phases in Hseq. cbn [app for_each] in Hseq.
  apply bind_ret_inv in Hseq. destruct Hseq as ([] & w0' & H0 & Hseq).
  apply bind_ret_inv in Hseq. destruct Hseq as ([] & w1' & H1 & Hseq).
  apply bind_ret_inv in Hseq. destruct Hseq as ([] & w2' & H2 & Hseq).
  apply bind_ret_inv in Hseq. destruct Hseq as ([] & w3' & H3 & Hseq).
  apply bind_ret_inv in Hseq. destruct Hseq as ([] & w4' & H4 & Hseq).
  apply bind_ret_inv in Hseq. destruct Hseq as ([] & w5' & H5 & Hseq).
  apply bind_ret_inv in Hseq. destruct Hseq as ([] & w6' & H6 & Hseq).
  apply bind_ret_inv in Hseq. destruct Hseq as ([] & w7' & H7 & Hseq).
  apply bind_ret_inv in Hseq. destruct Hseq as ([] & w8' & H8 & Hseq).
  apply bind_ret_inv in Hseq. destruct Hseq as ([] & w9' & H9 & Hseq).
  apply bind_ret_inv in Hseq. destruct Hseq as ([] & w10' & H10 & Hseq).
  injection Hseq as <-.
  pose proof (keeps_ret_world _ _ _ _ K5 H5) as E5.
  pose proof (keeps_ret_world _ _ _ _ K6 H6) as E6.
  pose proof (keeps_ret_world _ _ _ _ K7 H7) as E7.
  pose proof (keeps_ret_world _ _ _ _ K8 H8) as E8.
  pose proof (keeps_ret_world _ _ _ _ K10 H10) as E10.
  unfold get_uid in *.
  unfold early_identity in H4. unfold late_identity in H9.
  rewrite Hdo in H4, H9. destruct (a_early args); cbn [andb negb when] in H4, H9.
  - injection H9 as <-.
    apply (assume_uid_returns_checked _ _ _ _ _ _ H4). congruence.
  - apply (assume_uid_returns_checked _ _ _ _ _ _ H9). congruence.
Qed.

Lemma loop_not_reached_as_root_witness :
  resolved_uid (sample_env true no_settings claimed_listing [] None)
    (try_int (or_setting (sample_env true no_settings claimed_listing [] None)
                (of_arg (a_uid (sample_args (Some "0") None false))) "uid"))
  = Some 0.
Proof.
  exact (loop_not_reached_as_root
           (sample_env true no_settings claimed_listing [] None)
           (sample_args (Some "0") None false) as_root
           (sequence (phases (sample_env true no_settings claimed_listing [] None)
                        (sample_args (Some "0") None false)) as_root).2
           eq_refl ltac:(vm_compute; reflexivity) ltac:(vm_compute; reflexivity)).
Defined.

(** ** A user or group that does not exist *)

(** X19.  A user name that the user database does not know ends
    [assume_uid] before anything is changed: the last calls are the critical
    line naming the user and [log.shutdown()], no [os.setuid], [os.setgid] or
    [os.umask] has been made, and the identity of the process is what it
    was. *)
Theorem unknown_user_changes_nothing (env : Env) (uid gid umask : PyVal)
    (name : string) (w : World) :
  try_int (or_setting env uid "uid") = PStr name ->
  getpwnam env name = None ->
  (assume_uid env uid gid umask w).1 = Raise (SystemExit 1)
  /\ proc (assume_uid env uid gid umask w).2 = proc w
  /\ exists pre,
       trace (assume_uid env uid gid umask w).2
       = trace w ++ pre ++ [EvLog CRITICAL (Fmt "No such user %r." [PStr name]);
                            EvLogShutdown]
       /\ Forall (fun e => is_setuid e = false /\ is_setgid e = false
                           /\ is_umask e = false) pre.
Proof.
  intros Hname Hnone. rewrite assume_uid_run.
  assert (Hgen : forall um w0,
            identity_steps env uid gid um w0
            = (Raise (SystemExit 1),
               extend [EvLog CRITICAL (Fmt "No such user %r." [PStr name]);
                       EvLogShutdown] w0)).
  { intros um w0. unfold identity_steps. apply bind_raise_l.
    rewrite Hname. cbn [uid_step]. rewrite Hnone.
    unfold log, log_shutdown, sys_exit, bind, emit, raise, extend, add_event.
    cbn [proc cwd pymodules trace]. now rewrite <- app_assoc. }
  destruct (py_int (or_setting env umask "umask")) as [z|];
    [|destruct (truthy (or_setting env umask "umask"))];
    rewrite Hgen; unfold extend, add_event; cbn [fst snd proc trace];
    (split; [reflexivity|]); (split; [reflexivity|]).
  - exists [EvAssumeUid uid gid umask]. rewrite <- !app_assoc.
    split; [reflexivity|]. repeat constructor.
  - exists [EvAssumeUid uid gid umask;
            EvLog WARNING (invalid_umask (or_setting env umask "umask"))].
    rewrite <- !app_assoc. split; [reflexivity|]. repeat constructor.
  - exists [EvAssumeUid uid gid umask]. rewrite <- !app_assoc.
    split; [reflexivity|]. repeat constructor.
Qed.

Lemma unknown_user_changes_nothing_witness :
  proc (assume_uid (sample_env true no_settings [] [] None)
          (PStr "nobody") (PStr "mud") (PStr "63") as_root).2 = proc as_root.
Proof.
  destruct (unknown_user_changes_nothing (sample_env true no_settings [] [] None)
              (PStr "nobody") (PStr "mud") (PStr "63") "nobody" as_root
              eq_refl eq_refl) as (_ & H & _).
  exact H.
Defined.

(** ** SIGHUP outside the loop *)

(** X20.  The [try] statement is the only place where [SystemCopyover] is
    caught.  A SIGHUP delivered after the handler is installed and before the
    loop ends the process at once, with nothing done and nothing logged; one
    delivered after the [try] statement has been left, whichever way the loop
    ended, ends it before the cleanup: the shutdown hooks are not run.  Both
    times the exit status is 1. *)
Theorem sighup_outside_loop_is_fatal (env : Env) (args : Args)
    (hup : Place -> bool) (w : World) :
  (hup BeforeLoop = true ->
   supervise env hup args w = (Raise SystemCopyover, w))
  /\ (hup BeforeLoop = false -> hup AfterLoop = true ->
      forall w1,
        late_identity env args w = (Ret tt, w1) ->
        (supervise env hup args w).1 <> Raise (SystemExit 0)
        /\ exit_status (supervise env hup args w).1 = 1
        /\ count is_hooks_run (trace (supervise env hup args w).2)
           = count is_hooks_run (trace w1)).
Proof.
  split.
  - intros Hb. unfold supervise. rewrite Hb. reflexivity.
  - intros Hb Ha w1 Hlate.
    assert (Hrun : exists e mid,
              supervise env hup args w
              = (Raise e, MkWorld (proc w1) (cwd w1) (pymodules w1)
                            (trace w1 ++ [EvLog INFO entering_loop; EvLogLine;
                                          EvEngineStart] ++ mid))
              /\ e <> SystemExit 0 /\ exit_status (@Raise unit e) = 1
              /\ count is_hooks_run mid = 0%nat).
    { unfold supervise. rewrite Hb, Ha.
      unfold delivered at 1. rewrite (bind_ret_l _ _ _ _ _ Hlate).
      cbv [enter_loop log log_line run_loop engine_start_hup delivered signal_HUP
           try_except bind emit raise ret add_event].
      cbn [proc cwd pymodules trace]. rewrite <- !app_assoc. cbn [app].
      destruct (hup InLoop); [|destruct (engine_outcome env) as [[c| | |what]|]].
      - exists SystemCopyover, []. repeat split; discriminate.
      - exists SystemCopyover, []. repeat split; discriminate.
      - exists SystemCopyover, []. repeat split; discriminate.
      - exists SystemCopyover, [EvPrint ""]. cbn [proc cwd pymodules trace].
        rewrite <- !app_assoc. repeat split; discriminate.
      - exists (PyException what), []. repeat split; discriminate.
      - exists SystemCopyover, []. repeat split; discriminate. }
    destruct Hrun as (e & mid & -> & Hne & Hst & Hmid). cbn [fst snd trace].
    split; [congruence|]. split; [exact Hst|].
    rewrite !count_app, Hmid. cbn. lia.
Qed.

Lemma sighup_outside_loop_is_fatal_witness :
  supervise (sample_env true no_settings claimed_listing [] None)
    (fun _ => true) (sample_args (Some "mud") None false) in_library
  = (Raise SystemCopyover, in_library).
Proof.
  exact (proj1 (sighup_outside_loop_is_fatal
                  (sample_env true no_settings claimed_listing [] None)
                  (sample_args (Some "mud") None false) (fun _ => true) in_library)
           eq_refl).
Defined.
